(** * flipCoin: the retrying transaction submitter and its error classifier

    A shallow embedding of [src/utils/transaction.ts]:
    [retryTransaction], [isRetryableError] and [formatTransactionError].

    Conventions of the embedding.
    - A JavaScript string is a [string] of 8-bit code units (the Latin-1
      range of UTF-16); [toLowerCase] lowers A-Z and the Latin-1 capitals.
    - The numbers of [formatTransactionError] are IEEE binary64 values
      ([spec_float] at precision 53), since the function prints them digit
      by digit.  The counters and delays of [retryTransaction] are exact:
      [maxRetries] and [attempt] are integers, and delays are rationals, so
      the rounding of a sum of doubles is left out.
    - A thrown value is an [Error] object with a string [message].
    - The ledger connection, the caller's send function and [Math.random]
      are operations on an abstract world; every call is recorded in a
      trace.  [console.log] output is not recorded. *)

From Stdlib Require Import String Ascii List Bool ZArith NArith QArith Lia Lqa.
From Stdlib Require Import SpecFloat DecimalString.
Import ListNotations.

Local Open Scope string_scope.

(** ** JavaScript strings *)

Module JsString.

(** [String.prototype.toLowerCase] on one code unit below 256. *)
Definition lowerChar (c : ascii) : ascii :=
  let n := N_of_ascii c in
  if ((65 <=? n) && (n <=? 90))%N
     || ((192 <=? n) && (n <=? 222) && negb (n =? 215))%N
  then ascii_of_N (n + 32)
  else c.

Fixpoint toLowerCase (s : string) : string :=
  match s with
  | EmptyString => EmptyString
  | String c t => String (lowerChar c) (toLowerCase t)
  end.

(** [s.includes(sub)]: [sub] occurs in [s] as a contiguous substring. *)
Fixpoint includes (s sub : string) : bool :=
  prefix sub s
  || match s with
     | EmptyString => false
     | String _ t => includes t sub
     end.

(** [p] removed from the front of [s], when [s] starts with [p]. *)
Fixpoint dropPrefix (p s : string) : option string :=
  match p, s with
  | EmptyString, _ => Some s
  | String a p', String b s' =>
      if Ascii.eqb a b then dropPrefix p' s' else None
  | String _ _, EmptyString => None
  end.

(** The longest prefix of [s] whose characters satisfy [f], and the rest:
    a greedy [c+] or [c*] of a regular expression. *)
Fixpoint span (f : ascii -> bool) (s : string) : string * string :=
  match s with
  | EmptyString => (EmptyString, EmptyString)
  | String c t =>
      if f c then let (a, r) := span f t in (String c a, r)
      else (EmptyString, s)
  end.

(** The regular-expression class [\d]. *)
Definition isDigit (c : ascii) : bool :=
  let n := N_of_ascii c in ((48 <=? n) && (n <=? 57))%N.

(** The regular-expression class [\w]: letters, digits and underscore. *)
Definition isWord (c : ascii) : bool :=
  let n := N_of_ascii c in
  (((65 <=? n) && (n <=? 90)) || ((97 <=? n) && (n <=? 122))
   || ((48 <=? n) && (n <=? 57)) || (n =? 95))%N.

(** An unanchored [s.match(re)]: the match attempt [at_] is tried at every
    position from the left, and the first success is the result. *)
Fixpoint search {A : Type} (at_ : string -> option A) (s : string)
  : option A :=
  match at_ s with
  | Some r => Some r
  | None =>
      match s with
      | EmptyString => None
      | String _ t => search at_ t
      end
  end.

(** [s.split(sep)] for a separator of at least one character.  [skip]
    counts the characters of a separator still to be passed over, and
    [cur] is the piece being collected. *)
Fixpoint splitFrom (sep s : string) (skip : nat) (cur : string)
  : list string :=
  match s with
  | EmptyString => [cur]
  | String c t =>
      match skip with
      | S k => splitFrom sep t k cur
      | O =>
          if prefix sep s
          then cur :: splitFrom sep t (String.length sep - 1) EmptyString
          else splitFrom sep t 0 (cur ++ String c EmptyString)
      end
  end.

Definition split (s sep : string) : list string := splitFrom sep s 0 EmptyString.

End JsString.

Import JsString.

(** [s] between two double-quote characters (code unit 34). *)
Definition quoted (s : string) : string :=
  String (ascii_of_nat 34) s ++ String (ascii_of_nat 34) EmptyString.

(** ** Errors *)

Record Error : Type := mkError { message : string }.

(** [new Error(msg)] *)
Definition newError (msg : string) : Error := mkError msg.

(** ** isRetryableError (transaction.ts, lines 143-165) *)

Definition retryableErrors : list string :=
  [ "blockhash not found";
    "blockhashnotfound";
    "simulation failed";
    "transaction simulation failed";
    "accountdidnotserialize";
    "network error";
    "network request failed";
    "timeout";
    "rate limit";
    "429";
    "too many requests";
    "connection refused";
    "fetch failed";
    "rpc response error";
    "failed to get recent blockhash" ].

Definition isRetryableError (error : Error) : bool :=
  let message := toLowerCase (message error) in
  existsb (fun retryableError => includes message retryableError) retryableErrors.

(** ** JavaScript numbers: IEEE binary64 *)

Module JsNumber.

Definition prec : Z := 53.
Definition emax : Z := 1024.

Definition Number : Type := spec_float.

Definition NaN : Number := S754_nan.

(** The Number nearest to an integer (ties to even); [negZero] is the sign
    taken when the integer is zero. *)
Definition ofInteger (negZero : bool) (z : Z) : Number :=
  binary_normalize prec emax z 0 negZero.

Definition div (x y : Number) : Number := SFdiv prec emax x y.
Definition sub (x y : Number) : Number := SFsub prec emax x y.

(** The white space that [parseInt] skips, below code unit 256. *)
Definition isWhiteSpace (c : ascii) : bool :=
  let n := N_of_ascii c in
  (((9 <=? n) && (n <=? 13)) || (n =? 32) || (n =? 160))%N.

Fixpoint trimStart (s : string) : string :=
  match s with
  | EmptyString => EmptyString
  | String c t => if isWhiteSpace c then trimStart t else s
  end.

Fixpoint digitsValue (acc : Z) (s : string) : Z :=
  match s with
  | EmptyString => acc
  | String c t => digitsValue (acc * 10 + (Z.of_N (N_of_ascii c) - 48)) t
  end.

(** [parseInt(input, 10)]: leading white space and one sign are skipped,
    the longest run of decimal digits is read, and what follows is
    ignored; without a digit the result is NaN. *)
Definition parseInt10 (input : string) : Number :=
  let s := trimStart input in
  let '(neg, s1) :=
    match s with
    | String "-" t => (true, t)
    | String "+" t => (false, t)
    | _ => (false, s)
    end in
  let (digits, _) := span isDigit s1 in
  match digits with
  | EmptyString => NaN
  | _ => let v := digitsValue 0 digits in
         ofInteger neg (if neg then - v else v)
  end.

(** Decimal digits of a natural number; zero is ["0"]. *)
Definition decimal (n : Z) : string :=
  NilZero.string_of_uint (N.to_uint (Z.to_N n)).

Fixpoint zeros (k : nat) : string :=
  match k with
  | O => EmptyString
  | S k' => String "0" (zeros k')
  end.

(** Steps 11.b-11.d of [Number.prototype.toFixed]: the digits of [n] with
    a point before the last [f] of them, padded so that one digit stands
    before the point. *)
Definition fixedDigits (n : Z) (f : nat) : string :=
  let m := decimal n in
  match f with
  | O => m
  | _ =>
      let m := if (String.length m <=? f)%nat
               then zeros (f + 1 - String.length m) ++ m else m in
      let k := String.length m in
      substring 0 (k - f) m ++ "." ++ substring (k - f) f m
  end.

(** The integer [n] for which [n / 10^f] is nearest to [m * 2^e], the
    larger one when two are equally near. *)
Definition scaledRound (m : positive) (e : Z) (f : nat) : Z :=
  let num := (Zpos m * 10 ^ Z.of_nat f)%Z in
  if (0 <=? e)%Z then (num * 2 ^ e)%Z
  else ((2 * num + 2 ^ (- e)) / 2 ^ (- e + 1))%Z.

(** [m * 2^e >= 10^21] *)
Definition atLeast1e21 (m : positive) (e : Z) : bool :=
  if (0 <=? e)%Z then (10 ^ 21 <=? Zpos m * 2 ^ e)%Z
  else (10 ^ 21 * 2 ^ (- e) <=? Zpos m)%Z.

(** [Number::toString] of a finite value [m * 2^e] of at least 10^21,
    hence an integer printed in exponent form: the fewest digits [s], at
    most 17, for which [s * 10^p] rounds back to the value; when several
    [s] of that length do, the one nearest to the value, and the even one
    when two are equally near. *)
Definition roundTrips (x : Number) (s : Z) (p : nat) : bool :=
  SFeqb (ofInteger false (s * 10 ^ Z.of_nat p)) x.

Definition candidates (x : Number) (v : Z) (k : nat) : list (Z * nat) :=
  let d := String.length (decimal v) in
  filter
    (fun sp : Z * nat =>
       let (s, p) := sp in
       ((10 ^ Z.of_nat (k - 1) <=? s) && (s <? 10 ^ Z.of_nat k))%Z
       && roundTrips x s p)
    (flat_map
       (fun p => let q := (v / 10 ^ Z.of_nat p)%Z in [(q, p); ((q + 1)%Z, p)])
       [d - k; d - k + 1]%nat).

Definition nearer (v : Z) (a b : Z * nat) : Z * nat :=
  let da := Z.abs (fst a * 10 ^ Z.of_nat (snd a) - v) in
  let db := Z.abs (fst b * 10 ^ Z.of_nat (snd b) - v) in
  if (da <? db)%Z then a
  else if (db <? da)%Z then b
  else if Z.even (fst a) then a else b.

Fixpoint shortest (x : Number) (v : Z) (k : nat) (tries : nat)
  : option (Z * nat) :=
  match tries with
  | O => None
  | S tries' =>
      match candidates x v k with
      | c :: cs => Some (fold_left (nearer v) cs c)
      | [] => shortest x v (S k) tries'
      end
  end.

Definition exponentForm (s : Z) (p : nat) : string :=
  let digits := decimal s in
  let exponent := decimal (Z.of_nat (String.length digits + p - 1)) in
  match digits with
  | String d EmptyString => String d EmptyString ++ "e+" ++ exponent
  | String d rest => String d EmptyString ++ "." ++ rest ++ "e+" ++ exponent
  | EmptyString => EmptyString
  end.

Definition numberToString (m : positive) (e : Z) : string :=
  let v := (Zpos m * 2 ^ e)%Z in
  match shortest (S754_finite false m e) v 1 17 with
  | Some (s, p) => exponentForm s p
  | None => decimal v
  end.

End JsNumber.

Import JsNumber.

(** ** Exceptions of the language itself *)

Inductive Exception : Type :=
| TypeError
| RangeError.

(** A computation that returns or throws. *)
Inductive Js (A : Type) : Type :=
| Return (a : A)
| Throw (x : Exception).

Arguments Return {A} a.
Arguments Throw {A} x.

Definition bindJs {A B : Type} (c : Js A) (k : A -> Js B) : Js B :=
  match c with
  | Return a => k a
  | Throw x => Throw x
  end.

Declare Scope js_scope.
Delimit Scope js_scope with js.
Notation "x <- c ;; k" := (bindJs c (fun x => k))
  (at level 61, c at next level, right associativity) : js_scope.

(** [arr[i]] on the result of [String.prototype.match], which is an array
    or null: reading a property of null throws, and an index past the end
    gives undefined. *)
Definition index (arr : option (list string)) (i : nat) : Js (option string) :=
  match arr with
  | None => Throw TypeError
  | Some l => Return (nth_error l i)
  end.

(** Truthiness of a match result: null is falsy, an array is truthy. *)
Definition truthy {A : Type} (o : option A) : bool :=
  match o with
  | Some _ => true
  | None => false
  end.

(** [ToString] of a string or undefined. *)
Definition toStringValue (v : option string) : string :=
  match v with
  | Some s => s
  | None => "undefined"
  end.

(** [v || fallback] on a string or undefined: undefined and the empty
    string are falsy. *)
Definition orElse (v : option string) (fallback : string) : string :=
  match v with
  | Some (String c t) => String c t
  | _ => fallback
  end.

(** ** formatTransactionError (transaction.ts, lines 170-237) *)

Section Format.

(** Steps 6-12 of [Number.prototype.toFixed], for [f] fraction digits. *)
Definition toFixedDigits (x : Number) (f : nat) : string :=
  match x with
  | S754_nan => "NaN"
  | S754_infinity false => "Infinity"
  | S754_infinity true => "-Infinity"
  | S754_zero _ => fixedDigits 0 f
  | S754_finite s m e =>
      (if s then "-" else EmptyString)
      ++ (if atLeast1e21 m e
          then numberToString m e
          else fixedDigits (scaledRound m e f) f)
  end.

(** [x.toFixed(fractionDigits)]: a RangeError outside 0..100. *)
Definition toFixed (x : Number) (fractionDigits : Z) : Js string :=
  if ((fractionDigits <? 0) || (100 <? fractionDigits))%Z
  then Throw RangeError
  else Return (toFixedDigits x (Z.to_nat fractionDigits)).

(** [/insufficient lamports (\d+), need (\d+)/] tried at the start of [s].
    Each [\d+] takes every digit in front of it: what must follow it is
    not a digit, so no shorter run can succeed where the longest fails. *)
Definition lamportsAt (s : string) : option (list string) :=
  match dropPrefix "insufficient lamports " s with
  | None => None
  | Some r1 =>
      match span isDigit r1 with
      | (EmptyString, _) => None
      | (a, r2) =>
          match dropPrefix ", need " r2 with
          | None => None
          | Some r3 =>
              match span isDigit r3 with
              | (EmptyString, _) => None
              | (n, _) =>
                  Some ["insufficient lamports " ++ a ++ ", need " ++ n; a; n]
              end
          end
      end
  end.

(** [/Error Code: (\w+)/] tried at the start of [s]. *)
Definition errorCodeAt (s : string) : option (list string) :=
  match dropPrefix "Error Code: " s with
  | None => None
  | Some r =>
      match span isWord r with
      | (EmptyString, _) => None
      | (w, _) => Some ["Error Code: " ++ w; w]
      end
  end.

Local Open Scope js_scope.

Definition formatTransactionError (error : Error) : Js string :=
  let originalMessage := message error in
  let message := toLowerCase originalMessage in
  if includes originalMessage "Error Code: RoomNotAvailable"
     || includes originalMessage "Error Number: 6002"
  then Return "This room is no longer available for joining. It may be full, expired, or cancelled by the creator."
  else if includes originalMessage "Error Code: GameAlreadyStarted"
          || includes originalMessage "Error Number: 6001"
  then Return "Cannot join: This game has already started with another player."
  else if includes originalMessage "Error Code: InvalidGameState"
          || includes originalMessage "Error Number: 6003"
  then Return "Game is in an invalid state. Try refreshing the page or leaving the game."
  else if includes originalMessage "Error Code: SelectionTimeExpired"
          || includes originalMessage "Error Number: 6004"
  then Return ("Selection time has expired. Use " ++ quoted "Handle Timeout"
               ++ " to resolve the game.")
  else if includes originalMessage "Error Code: InsufficientFunds"
          || includes originalMessage "Error Number: 6005"
  then Return "Insufficient SOL balance to cover the bet amount and transaction fees."
  else if includes message "insufficient lamports"
  then
    let lamportsMatch := search lamportsAt message in
    if truthy lamportsMatch
    then
      g1 <- index lamportsMatch 1 ;;
      g2 <- index lamportsMatch 2 ;;
      let available :=
        div (parseInt10 (toStringValue g1)) (ofInteger false 1000000000) in
      let needed :=
        div (parseInt10 (toStringValue g2)) (ofInteger false 1000000000) in
      let shortage := sub needed available in
      a <- toFixed available 3 ;;
      n <- toFixed needed 3 ;;
      s <- toFixed shortage 3 ;;
      Return ("Insufficient SOL balance. You have " ++ a
              ++ " SOL but need " ++ n
              ++ " SOL. Please add " ++ s ++ " more SOL to your wallet.")
    else Return "Insufficient SOL balance to cover the bet amount and transaction fees."
  else if includes message "blockhash not found"
  then Return "Network connection issue. Please check your internet connection and try again."
  else if includes message "insufficient funds"
  then Return "Insufficient SOL balance to cover transaction and fees."
  else if includes message "user rejected"
  then Return "Transaction was cancelled by user."
  else if includes message "rate limit" || includes message "429"
  then Return "Network is busy. Please wait a moment and try again."
  else if includes message "timeout"
  then Return "Transaction timed out. Please try again."
  else if includes message "invalid program"
  then Return "Smart contract error. Please contact support."
  else if includes message "accountdidnotserialize"
  then Return ("Game account is corrupted. Try " ++ quoted "Handle Timeout"
               ++ " or " ++ quoted "Leave Game" ++ ".")
  else if includes message "constraintmut" && includes message "player_2"
  then Return ("Cannot process: Game has no second player. Try "
               ++ quoted "Leave Game" ++ " instead.")
  else if includes message "no second player"
  then Return ("This game never had a second player. Use "
               ++ quoted "Leave Game" ++ " to exit.")
  else
    let generic := Return ("Transaction failed: " ++ originalMessage) in
    if includes originalMessage "AnchorError"
       && includes originalMessage "Error Code:"
    then
      let errorCodeMatch := search errorCodeAt originalMessage in
      if truthy errorCodeMatch
      then
        errorCode <- index errorCodeMatch 1 ;;
        let detail :=
          match nth_error (split originalMessage "Error Message: ") 1 with
          | Some part => nth_error (split part ".") 0
          | None => None
          end in
        Return ("Game error (" ++ toStringValue errorCode ++ "): "
                ++ orElse detail "Please try again or contact support.")
      else generic
    else generic.

End Format.

(** The tests of [formatTransactionError] that come before the one for
    "user rejected" (lines 175-209). *)
Definition hasErrorCode (error : Error) : bool :=
  let originalMessage := message error in
  includes originalMessage "Error Code: RoomNotAvailable"
  || includes originalMessage "Error Number: 6002"
  || includes originalMessage "Error Code: GameAlreadyStarted"
  || includes originalMessage "Error Number: 6001"
  || includes originalMessage "Error Code: InvalidGameState"
  || includes originalMessage "Error Number: 6003"
  || includes originalMessage "Error Code: SelectionTimeExpired"
  || includes originalMessage "Error Number: 6004"
  || includes originalMessage "Error Code: InsufficientFunds"
  || includes originalMessage "Error Number: 6005".

Definition testedBeforeUserRejected (error : Error) : bool :=
  let message := toLowerCase (message error) in
  hasErrorCode error
  || includes message "insufficient lamports"
  || includes message "blockhash not found"
  || includes message "insufficient funds".

(** ** The world around retryTransaction *)

Local Open Scope list_scope.

Definition TransactionSignature : Type := string.

(** The result of [connection.getLatestBlockhash]: the consensus reference
    of an attempt. *)
Record BlockhashWithExpiryBlockHeight : Type := mkReference {
  blockhash : string;
  lastValidBlockHeight : Z
}.

(** How a promise settles. *)
Inductive Outcome (A : Type) : Type :=
| Fulfilled (a : A)
| Rejected (e : Error).

Arguments Fulfilled {A} a.
Arguments Rejected {A} e.

(** The [value] of a confirmation response.  [err] is null or the on-chain
    error payload, held as the text [JSON.stringify] gives for it. *)
Record SignatureResult : Type := mkSignatureResult {
  err : option string
}.

(** The response of [connection.confirmTransaction]; [value] is read with
    an optional chain, so it may be undefined. *)
Record Confirmation : Type := mkConfirmation {
  value : option SignatureResult
}.

(** When and how the promise of [confirmTransaction] settles, in
    milliseconds after the call, if it ever does. *)
Inductive Settlement : Type :=
| Settles (after : Q) (r : Outcome Confirmation)
| Pending.

(** What each [await new Promise(resolve => setTimeout(resolve, ms))] of the
    function is for. *)
Inductive Pause : Type :=
| SettleBeforeResend   (* line 30 *)
| SettleAfterConfirm   (* line 63 *)
| Backoff.             (* line 128 *)

(** One entry of the trace per call that leaves the function. *)
Inductive Event : Type :=
| EvGetLatestBlockhash (r : Outcome BlockhashWithExpiryBlockHeight)
| EvTransaction (r : Outcome TransactionSignature)
| EvConfirmTransaction (signature : TransactionSignature)
    (blockhash : string) (lastValidBlockHeight : Z) (s : Settlement)
| EvRandom (r : Q)
| EvSetTimeout (why : Pause) (ms : Q).

Record RetryTransactionOptions : Type := mkOptions {
  maxRetries : option Z;
  retryDelay : option Q
}.

(** A destructuring default: [const { x = d } = options]. *)
Definition orDefault {A : Type} (field : option A) (d : A) : A :=
  match field with
  | Some v => v
  | None => d
  end.

(** The timer of line 50, in milliseconds. *)
Definition confirmationTimeout : Q := 60000.

(** Whether the confirmation settles before the timer of the race fires.  A
    settlement at the deadline itself counts as late. *)
Definition settlesInTime (s : Settlement) : bool :=
  match s with
  | Settles after _ => negb (Qle_bool confirmationTimeout after)
  | Pending => false
  end.

(** [Promise.race([confirmationPromise, timeoutPromise])]: the confirmation
    wins when it settles in time; otherwise the timer rejects with its own
    error. *)
Definition race (s : Settlement) : Outcome Confirmation :=
  match s with
  | Settles _ r =>
      if settlesInTime s then r
      else Rejected (newError "Transaction confirmation timeout")
  | Pending => Rejected (newError "Transaction confirmation timeout")
  end.

(** How long the race keeps the function suspended. *)
Definition raceWait (s : Settlement) : Q :=
  match s with
  | Settles after _ => if settlesInTime s then after else confirmationTimeout
  | Pending => confirmationTimeout
  end.

(** Lines 76-85. *)
Definition isProgramLogicError (lastError : Error) : bool :=
  includes (message lastError) "RoomNotAvailable"
  || includes (message lastError) "GameAlreadyStarted"
  || includes (message lastError) "InvalidGameState"
  || includes (message lastError) "SelectionTimeExpired"
  || includes (message lastError) "Error Number: 6001"
  || includes (message lastError) "Error Number: 6002"
  || includes (message lastError) "Error Number: 6003"
  || includes (message lastError) "Error Number: 6004"
  || includes (message lastError) "Error Number: 6005".

(** Lines 99-105: the markers that end the call at once. *)
Definition matchesFatalMarker (lastError : Error) : bool :=
  includes (message lastError) "User rejected"
  || includes (message lastError) "insufficient funds"
  || includes (message lastError) "insufficient lamports"
  || includes (message lastError) "Invalid program"
  || includes (message lastError) "ConstraintMut"
  || includes (message lastError) "no second player"
  || isProgramLogicError lastError.

(** The condition of lines 98-107: the errors that are not retried. *)
Definition givesUpImmediately (lastError : Error) : bool :=
  let isRetryable := isRetryableError lastError in
  matchesFatalMarker lastError
  || (negb isRetryable
      && negb (includes (message lastError) "AccountDidNotSerialize")).

(** How the [catch] block leaves an iteration when it does not throw. *)
Inductive Control : Type :=
| Break
| Continue.

Section Submit.

Context {World : Type}.

(** The injected capabilities: the ledger connection, the caller's send
    function, [Math.random] and the clock. *)
Record Env : Type := mkEnv {
  getLatestBlockhash :
    World -> Outcome BlockhashWithExpiryBlockHeight * World;
  transaction : World -> Outcome TransactionSignature * World;
  confirmTransaction :
    TransactionSignature -> string -> Z -> World -> Settlement * World;
  random : World -> Q * World;
  elapse : Q -> World -> World
}.

(** A run: how it ends, the world it leaves, and the calls it made, in
    order. *)
Definition Prog (A : Type) : Type :=
  World -> Outcome A * World * list Event.

Definition ret {A : Type} (a : A) : Prog A :=
  fun w => (Fulfilled a, w, []).

Definition throw {A : Type} (e : Error) : Prog A :=
  fun w => (Rejected e, w, []).

Definition bind {A B : Type} (c : Prog A) (k : A -> Prog B) : Prog B :=
  fun w =>
    match c w with
    | (Fulfilled a, w1, t1) =>
        let '(r, w2, t2) := k a w1 in (r, w2, t1 ++ t2)
    | (Rejected e, w1, t1) => (Rejected e, w1, t1)
    end.

Variable env : Env.

Definition awaitGetLatestBlockhash : Prog BlockhashWithExpiryBlockHeight :=
  fun w =>
    let (r, w') := getLatestBlockhash env w in
    (r, w', [EvGetLatestBlockhash r]).

Definition awaitTransaction : Prog TransactionSignature :=
  fun w =>
    let (r, w') := transaction env w in (r, w', [EvTransaction r]).

Definition awaitSetTimeout (why : Pause) (ms : Q) : Prog unit :=
  fun w => (Fulfilled tt, elapse env ms w, [EvSetTimeout why ms]).

Definition mathRandom : Prog Q :=
  fun w => let (r, w') := random env w in (Fulfilled r, w', [EvRandom r]).

(** Lines 39-53: [confirmTransaction] is called with the signature and
    the reference, and its promise is raced against the timer. *)
Definition awaitConfirmation (signature : TransactionSignature)
    (blockhash : string) (lastValidBlockHeight : Z) : Prog Confirmation :=
  fun w =>
    let (s, w') :=
      confirmTransaction env signature blockhash lastValidBlockHeight w in
    (race s, elapse env (raceWait s) w',
     [EvConfirmTransaction signature blockhash lastValidBlockHeight s]).

End Submit.

Arguments Env World : clear implicits.

Declare Scope prog_scope.
Delimit Scope prog_scope with prog.
Notation "x <- c ;; k" := (bind c (fun x => k))
  (at level 61, c at next level, right associativity) : prog_scope.
Notation "c ;; k" := (bind c (fun _ => k))
  (at level 61, right associativity) : prog_scope.

(** ** retryTransaction (transaction.ts, lines 13-138) *)

Section RetryTransaction.

Context {World : Type}.
Variable connection : Env World.

Local Open Scope prog_scope.

(** The [try] block, lines 22-65. *)
Definition tryBlock (attempt : Z) : Prog TransactionSignature :=
  reference <- awaitGetLatestBlockhash connection ;;
  (if (0 <? attempt)%Z
   then awaitSetTimeout connection SettleBeforeResend 300
   else ret tt) ;;
  signature <- awaitTransaction connection ;;
  confirmation <-
    awaitConfirmation connection signature
      (blockhash reference) (lastValidBlockHeight reference) ;;
  match option_map err (value confirmation) with
  | Some (Some payload) =>
      throw (newError ("Transaction failed: " ++ payload)%string)
  | _ =>
      awaitSetTimeout connection SettleAfterConfirm 1000 ;;
      ret signature
  end.

(** The [catch] block, lines 66-134, entered with [lastError] already
    assigned. *)
Definition catchBlock (maxRetries : Z) (retryDelay : Q) (attempt : Z)
    (lastError : Error) : Prog Control :=
  if givesUpImmediately lastError
  then
    if includes (message lastError) "User rejected"
    then throw (newError "Transaction was cancelled by user.")
    else throw lastError
  else
    if (attempt =? maxRetries)%Z
    then ret Break
    else
      let baseDelay := (retryDelay * inject_Z (2 ^ attempt))%Q in
      r <- mathRandom connection ;;
      let jitter := (r * 500)%Q in
      let delay := (baseDelay + jitter)%Q in
      awaitSetTimeout connection Backoff delay ;;
      ret Continue.

(** The [for] loop of line 21 and the [throw lastError] after it.  [fuel]
    bounds the iterations; [None] means that the bound was too small. *)
Fixpoint attemptLoop (maxRetries : Z) (retryDelay : Q) (fuel : nat)
    (attempt : Z) (lastError : Error) (w : World)
  : option (Outcome TransactionSignature * World * list Event) :=
  if (attempt <=? maxRetries)%Z
  then
    match fuel with
    | O => None
    | S fuel' =>
        match tryBlock attempt w with
        | (Fulfilled signature, w1, t1) =>
            Some (Fulfilled signature, w1, t1)
        | (Rejected error, w1, t1) =>
            match catchBlock maxRetries retryDelay attempt error w1 with
            | (Rejected thrown, w2, t2) =>
                Some (Rejected thrown, w2, t1 ++ t2)
            | (Fulfilled Break, w2, t2) =>
                Some (Rejected error, w2, t1 ++ t2)
            | (Fulfilled Continue, w2, t2) =>
                match attemptLoop maxRetries retryDelay fuel'
                        (attempt + 1) error w2 with
                | Some (r, w3, t3) => Some (r, w3, t1 ++ t2 ++ t3)
                | None => None
                end
            end
        end
    end
  else Some (Rejected lastError, w, []).

Definition retryTransaction (options : RetryTransactionOptions) (w : World)
  : option (Outcome TransactionSignature * World * list Event) :=
  let maxRetries := orDefault (maxRetries options) 3%Z in
  let retryDelay := orDefault (retryDelay options) 1000 in
  let lastError := newError "Transaction failed" in
  attemptLoop maxRetries retryDelay (Z.to_nat (maxRetries + 1)) 0 lastError w.

End RetryTransaction.

(** ** Observations on a trace *)

(** How the calls of the send function settled, in order. *)
Fixpoint sendResults (t : list Event) : list (Outcome TransactionSignature) :=
  match t with
  | [] => []
  | EvTransaction r :: t' => r :: sendResults t'
  | _ :: t' => sendResults t'
  end.

(** The number of times the send function was invoked. *)
Definition sendCount (t : list Event) : nat := length (sendResults t).

(** The numbers that [Math.random] returned, in order. *)
Fixpoint randomDraws (t : list Event) : list Q :=
  match t with
  | [] => []
  | EvRandom r :: t' => r :: randomDraws t'
  | _ :: t' => randomDraws t'
  end.

(** The number of attempts begun: every iteration starts by asking the
    connection for the latest blockhash. *)
Fixpoint attemptCount (t : list Event) : nat :=
  match t with
  | [] => O
  | EvGetLatestBlockhash _ :: t' => S (attemptCount t')
  | _ :: t' => attemptCount t'
  end.

(** The backoff delays, in the order in which they were waited for. *)
Fixpoint backoffDelays (t : list Event) : list Q :=
  match t with
  | [] => []
  | EvSetTimeout Backoff ms :: t' => ms :: backoffDelays t'
  | _ :: t' => backoffDelays t'
  end.



(** The reference discipline of a trace: every send comes after a
    successful fetch of its own attempt, with no other send or fetch in
    between, and every confirmation is made against the reference of the
    last fetch.  [current] is the reference fetched in the running attempt
    and not yet used by a send, [sent] the one the last send went out
    under. *)
Fixpoint anchored (current sent : option BlockhashWithExpiryBlockHeight)
    (t : list Event) : bool :=
  match t with
  | [] => true
  | EvGetLatestBlockhash (Fulfilled reference) :: t' =>
      anchored (Some reference) None t'
  | EvGetLatestBlockhash (Rejected _) :: t' => anchored None None t'
  | EvTransaction _ :: t' =>
      match current with
      | Some reference => anchored None (Some reference) t'
      | None => false
      end
  | EvConfirmTransaction _ hash height _ :: t' =>
      match sent with
      | Some reference =>
          String.eqb hash (blockhash reference)
          && (height =? lastValidBlockHeight reference)%Z
          && anchored current None t'
      | None => false
      end
  | _ :: t' => anchored current sent t'
  end.

(** ** Scripted worlds, for running the function *)

(** The calls made so far: fetches, sends and random draws. *)
Record Calls : Type := mkCalls {
  fetches : nat;
  sends : nat;
  draws : nat
}.

(** A connection that always answers, with a new reference at each fetch; a
    send function whose [k]-th call settles as [script k]; confirmations
    that all settle as [settlement]; and [Math.random] drawing
    [numbers k] at its [k]-th call. *)
Definition scripted (script : nat -> Outcome TransactionSignature)
    (settlement : Settlement) (numbers : nat -> Q) : Env Calls :=
  {| getLatestBlockhash := fun w =>
       (Fulfilled (mkReference "hash" (Z.of_nat (fetches w))),
        mkCalls (S (fetches w)) (sends w) (draws w));
     transaction := fun w =>
       (script (sends w), mkCalls (fetches w) (S (sends w)) (draws w));
     confirmTransaction := fun _ _ _ w => (settlement, w);
     random := fun w =>
       (numbers (draws w), mkCalls (fetches w) (sends w) (S (draws w)));
     elapse := fun _ w => w |}.

Definition noCalls : Calls := mkCalls 0 0 0.

(** A confirmation without an on-chain error, after 400 ms. *)
Definition confirmed : Settlement :=
  Settles 400 (Fulfilled (mkConfirmation (Some (mkSignatureResult None)))).

Definition alwaysFails (msg : string) : nat -> Outcome TransactionSignature :=
  fun _ => Rejected (mkError msg).

Definition failsThenSucceeds (failures : nat) (msg : string)
  : nat -> Outcome TransactionSignature :=
  fun k => if (k <? failures)%nat then Rejected (mkError msg)
           else Fulfilled "sig".

(** The trace of a run that ends with a failed send in its first
    attempt. *)
Definition firstAttemptOnly (msg : string) : list Event :=
  [EvGetLatestBlockhash (Fulfilled (mkReference "hash" 0));
   EvTransaction (Rejected (mkError msg))].

(** The trace of a run against [connection] from [noCalls]. *)
Definition traceOf (connection : Env Calls) (options : RetryTransactionOptions)
  : list Event :=
  match retryTransaction connection options noCalls with
  | Some (_, _, t) => t
  | None => []
  end.

(** Three attempts that fail with ["fetch failed"], with every draw of
    [Math.random] equal to one half. *)
Definition threeFailedFetches : list Event :=
  Eval vm_compute in
    traceOf (scripted (alwaysFails "fetch failed") confirmed (fun _ => 1 # 2))
      (mkOptions (Some 2%Z) None).


(** ** Observations on a formatted amount *)

Fixpoint isDigits (s : string) : bool :=
  match s with
  | EmptyString => true
  | String c t => isDigit c && isDigits t
  end.

(** [s] is an amount written with exactly three digits after the point. *)
Definition threeDecimals (s : string) : Prop :=
  exists sign whole fraction,
    s = (sign ++ whole ++ "." ++ fraction)%string
    /\ (sign = EmptyString \/ sign = "-")
    /\ whole <> EmptyString
    /\ isDigits whole = true
    /\ isDigits fraction = true
    /\ String.length fraction = 3%nat.

(** [x] is finite and of magnitude below 10^21, where [toFixed] writes
    plain digits. *)
Definition below1e21 (x : Number) : bool :=
  match x with
  | S754_zero _ => true
  | S754_finite _ m e => negb (atLeast1e21 m e)
  | _ => false
  end.

(** Line 199: [parseInt(digits, 10) / 1_000_000_000]. *)
Definition lamportsToSol (digits : string) : Number :=
  div (parseInt10 digits) (ofInteger false 1000000000).

(** ** Further observations on a run *)

(** The confirmation wins the race and reports no on-chain error: the case
    in which the [try] block goes on to line 60. *)
Definition confirmedOk (s : Settlement) : bool :=
  match race s with
  | Fulfilled confirmation =>
      match option_map err (value confirmation) with
      | Some (Some _) => false
      | _ => true
      end
  | Rejected _ => false
  end.

(** Whether some confirmation of the trace came out well. *)
Definition hasConfirmedOk (t : list Event) : bool :=
  existsb
    (fun ev =>
       match ev with
       | EvConfirmTransaction _ _ _ s => confirmedOk s
       | _ => false
       end) t.


(** An error as a caller or a library passes it on: the same message with
    text in front of it and after it. *)
Definition wrapped (before : string) (error : Error) (after : string) : Error :=
  mkError (before ++ message error ++ after)%string.

(** The sentences of [formatTransactionError] that tell the user to try
    again (lines 208, 214, 216) or that the account data is stale
    (line 220). *)
Definition transientSentences : list string :=
  [ "Network connection issue. Please check your internet connection and try again.";
    "Network is busy. Please wait a moment and try again.";
    "Transaction timed out. Please try again.";
    ("Game account is corrupted. Try " ++ quoted "Handle Timeout"
     ++ " or " ++ quoted "Leave Game" ++ ".")%string ].

(** The sentences of [formatTransactionError] for the four game-state
    errors of the program (lines 176, 180, 184, 188). *)
Definition gameStateSentences : list string :=
  [ "This room is no longer available for joining. It may be full, expired, or cancelled by the creator.";
    "Cannot join: This game has already started with another player.";
    "Game is in an invalid state. Try refreshing the page or leaving the game.";
    ("Selection time has expired. Use " ++ quoted "Handle Timeout"
     ++ " to resolve the game.")%string ].

(** The signature that the [k]-th call of a scripted send function
    returns. *)
Definition signatureOfCall (k : nat) : TransactionSignature :=
  ("sig" ++ decimal (Z.of_nat k))%string.


(** A connection whose every [getLatestBlockhash] rejects with [msg]; the
    send function would succeed if it were called. *)
Definition unreachableLedger (msg : string) : Env Calls :=
  {| getLatestBlockhash := fun w =>
       (Rejected (mkError msg), mkCalls (S (fetches w)) (sends w) (draws w));
     transaction := fun w =>
       (Fulfilled (signatureOfCall (sends w)),
        mkCalls (fetches w) (S (sends w)) (draws w));
     confirmTransaction := fun _ _ _ w => (confirmed, w);
     random := fun w =>
       (0, mkCalls (fetches w) (sends w) (S (draws w)));
     elapse := fun _ w => w |}.


(** * Properties *)

(** ** The formatter *)

Lemma hasErrorCode_false (error : Error) :
  hasErrorCode error = false ->
  (includes (message error) "Error Code: RoomNotAvailable"
   || includes (message error) "Error Number: 6002" = false)
  /\ (includes (message error) "Error Code: GameAlreadyStarted"
      || includes (message error) "Error Number: 6001" = false)
  /\ (includes (message error) "Error Code: InvalidGameState"
      || includes (message error) "Error Number: 6003" = false)
  /\ (includes (message error) "Error Code: SelectionTimeExpired"
      || includes (message error) "Error Number: 6004" = false)
  /\ (includes (message error) "Error Code: InsufficientFunds"
      || includes (message error) "Error Number: 6005" = false).
Proof.
  unfold hasErrorCode. cbv zeta. intros H.
  repeat (apply orb_false_elim in H; destruct H as [H ?]).
  repeat split; apply orb_false_intro; assumption.
Qed.

Lemma formatTransactionError_userRejected (error : Error) :
  includes (toLowerCase (message error)) "user rejected" = true ->
  testedBeforeUserRejected error = false ->
  formatTransactionError error = Return "Transaction was cancelled by user.".
Proof.
  intros Huser Hearlier. unfold testedBeforeUserRejected in Hearlier.
  cbv zeta in Hearlier.
  do 3 (apply orb_false_elim in Hearlier; destruct Hearlier as [Hearlier ?]).
  apply hasErrorCode_false in Hearlier.
  destruct Hearlier as (Hc1 & Hc2 & Hc3 & Hc4 & Hc5).
  unfold formatTransactionError. cbv zeta.
  rewrite Hc1, Hc2, Hc3, Hc4, Hc5.
  repeat match goal with
         | H : includes _ _ = false |- _ => rewrite H; clear H
         end.
  rewrite Huser. reflexivity.
Qed.

(** ** The attempt loop *)

Section LoopFacts.

Context {World : Type}.
Variable connection : Env World.

Lemma attemptLoop_exit (maxRetries : Z) (retryDelay : Q) (fuel : nat)
    (attempt : Z) (lastError : Error) (w : World) :
  (maxRetries < attempt)%Z ->
  attemptLoop connection maxRetries retryDelay fuel attempt lastError w
  = Some (Rejected lastError, w, []).
Proof.
  intros Hlt. apply Z.leb_gt in Hlt.
  destruct fuel; simpl; rewrite Hlt; reflexivity.
Qed.

Lemma attemptLoop_step (maxRetries : Z) (retryDelay : Q) (fuel : nat)
    (attempt : Z) (lastError : Error) (w : World) :
  (attempt <= maxRetries)%Z ->
  attemptLoop connection maxRetries retryDelay (S fuel) attempt lastError w
  = match tryBlock connection attempt w with
    | (Fulfilled signature, w1, t1) => Some (Fulfilled signature, w1, t1)
    | (Rejected error, w1, t1) =>
        match catchBlock connection maxRetries retryDelay attempt error w1 with
        | (Rejected thrown, w2, t2) => Some (Rejected thrown, w2, t1 ++ t2)
        | (Fulfilled Break, w2, t2) => Some (Rejected error, w2, t1 ++ t2)
        | (Fulfilled Continue, w2, t2) =>
            match attemptLoop connection maxRetries retryDelay fuel
                    (attempt + 1) error w2 with
            | Some (r, w3, t3) => Some (r, w3, t1 ++ t2 ++ t3)
            | None => None
            end
        end
    end.
Proof.
  intros Hle. apply Z.leb_le in Hle. simpl. rewrite Hle. reflexivity.
Qed.



(** What the [catch] block does with an error that is not retried. *)
Lemma catchBlock_gives_up (maxRetries : Z) (retryDelay : Q) (attempt : Z)
    (lastError : Error) (w : World) :
  givesUpImmediately lastError = true ->
  catchBlock connection maxRetries retryDelay attempt lastError w
  = (Rejected (if includes (message lastError) "User rejected"
               then newError "Transaction was cancelled by user."
               else lastError), w, []).
Proof.
  intros Hgive. unfold catchBlock. rewrite Hgive.
  destruct (includes (message lastError) "User rejected"); reflexivity.
Qed.

(** A first attempt that fails with an error that is not retried ends the
    call there: the world and the trace are those of that one [try]
    block. *)
Lemma first_failure_is_final (options : RetryTransactionOptions)
    (w w1 : World) (t1 : list Event) (error : Error) :
  (0 <= orDefault (maxRetries options) 3)%Z ->
  tryBlock connection 0 w = (Rejected error, w1, t1) ->
  givesUpImmediately error = true ->
  retryTransaction connection options w
  = Some (Rejected (if includes (message error) "User rejected"
                    then newError "Transaction was cancelled by user."
                    else error), w1, t1).
Proof.
  intros Hmax Htry Hgive. unfold retryTransaction.
  destruct (Z.to_nat (orDefault (maxRetries options) 3 + 1)%Z) as [|fuel] eqn:Hfuel;
    [lia|].
  rewrite attemptLoop_step by assumption.
  rewrite Htry, catchBlock_gives_up by assumption.
  rewrite app_nil_r. reflexivity.
Qed.

End LoopFacts.

(** ** One [try] block *)

Section TryBlockFacts.

Context {World : Type}.
Variable connection : Env World.

(** The trace of one [try] block: one fetch, at most one send, no backoff
    and no random draw; and the reference discipline holds over it
    whatever came before, provided it holds over what follows. *)
Lemma tryBlock_trace (attempt : Z) (w : World) :
  forall r w1 t1,
    tryBlock connection attempt w = (r, w1, t1) ->
    attemptCount t1 = 1%nat
    /\ (sendCount t1 <= 1)%nat
    /\ backoffDelays t1 = []
    /\ randomDraws t1 = []
    /\ (forall current sent rest,
           (forall current' sent', anchored current' sent' rest = true) ->
           anchored current sent (t1 ++ rest) = true).
Proof.
  intros r w1 t1.
  unfold tryBlock, bind, awaitGetLatestBlockhash, awaitTransaction,
    awaitConfirmation, awaitSetTimeout, ret, throw.
  destruct (getLatestBlockhash connection w) as [[reference|e] wa].
  2:{ intros [= <- <- <-]. cbn. repeat split; auto. }
  destruct (0 <? attempt)%Z;
    (match goal with
     | |- context [transaction connection ?x] =>
         destruct (transaction connection x) as [[signature|e] wb]
     end;
     [ match goal with
       | |- context [confirmTransaction connection ?a ?b ?c ?x] =>
           destruct (confirmTransaction connection a b c x) as [s wc]
       end;
       destruct (race s) as [[[[[payload|]]|]]|e]
     | ]);
    intros [= <- <- <-]; cbn;
    rewrite ?String.eqb_refl, ?Z.eqb_refl; cbn;
    repeat split; auto.
Qed.

End TryBlockFacts.

(** ** Errors that end the call at once *)

Section GivingUp.

Context {World : Type}.
Variable connection : Env World.

Lemma programLogic_givesUp (error : Error) :
  isProgramLogicError error = true -> givesUpImmediately error = true.
Proof.
  intros H. unfold givesUpImmediately, matchesFatalMarker. rewrite H.
  rewrite !orb_true_r. reflexivity.
Qed.

Lemma userRejected_givesUp (error : Error) :
  includes (message error) "User rejected" = true ->
  givesUpImmediately error = true.
Proof.
  intros H. unfold givesUpImmediately, matchesFatalMarker. rewrite H.
  reflexivity.
Qed.

(** C10.  With a negative [maxRetries] the loop body never runs: no call
    leaves the function (the trace is empty, so neither the send function
    nor the connection is invoked), the world is untouched, and the call
    rejects with the placeholder error ['Transaction failed']. *)
Theorem negative_maxRetries_makes_no_attempt
    (n : Z) (delay : option Q) (w : World) :
  (n < 0)%Z ->
  retryTransaction connection (mkOptions (Some n) delay) w
  = Some (Rejected (newError "Transaction failed"), w, []).
Proof.
  intros Hneg. unfold retryTransaction. cbn [orDefault maxRetries].
  apply attemptLoop_exit. assumption.
Qed.

(** C2, as amended.  When [maxRetries] is not negative and the first
    attempt fails with an error whose message holds a program-logic marker
    and not ['User rejected'], the call ends with that one attempt and
    rejects with the raw error. *)
Theorem program_logic_error_is_final
    (options : RetryTransactionOptions) (w w1 : World) (t1 : list Event)
    (error : Error) :
  (0 <= orDefault (maxRetries options) 3)%Z ->
  tryBlock connection 0 w = (Rejected error, w1, t1) ->
  isProgramLogicError error = true ->
  includes (message error) "User rejected" = false ->
  retryTransaction connection options w = Some (Rejected error, w1, t1)
  /\ attemptCount t1 = 1%nat
  /\ (sendCount t1 <= 1)%nat.
Proof.
  intros Hmax Htry Hlogic Huser.
  pose proof (first_failure_is_final connection options w w1 t1 error
                Hmax Htry (programLogic_givesUp error Hlogic)) as Hrun.
  rewrite Huser in Hrun.
  destruct (tryBlock_trace connection 0 w _ _ _ Htry) as (Hone & Hsend & _).
  auto.
Qed.

(** C3, as amended.  An error whose message holds ['User rejected'] in
    exactly that casing ends the call at the first attempt with the fixed
    sentence; and [formatTransactionError] gives the same sentence for a
    message that holds "user rejected" in any casing and none of the
    markers it tests earlier. *)
Theorem user_rejection_gets_the_fixed_sentence
    (options : RetryTransactionOptions) (w w1 : World) (t1 : list Event)
    (error shown : Error) :
  (0 <= orDefault (maxRetries options) 3)%Z ->
  tryBlock connection 0 w = (Rejected error, w1, t1) ->
  includes (message error) "User rejected" = true ->
  includes (toLowerCase (message shown)) "user rejected" = true ->
  testedBeforeUserRejected shown = false ->
  retryTransaction connection options w
  = Some (Rejected (newError "Transaction was cancelled by user."), w1, t1)
  /\ attemptCount t1 = 1%nat
  /\ formatTransactionError shown
     = Return "Transaction was cancelled by user.".
Proof.
  intros Hmax Htry Huser Hshown Hearlier.
  pose proof (first_failure_is_final connection options w w1 t1 error
                Hmax Htry (userRejected_givesUp error Huser)) as Hrun.
  rewrite Huser in Hrun.
  destruct (tryBlock_trace connection 0 w _ _ _ Htry) as (Hone & _).
  repeat split; auto.
  apply formatTransactionError_userRejected; assumption.
Qed.

(** C5, as amended.  In [retryTransaction] the test for ['User rejected']
    comes first: an error whose message holds both a program-logic marker
    and ['User rejected'] ends the call at the first attempt with the
    cancellation sentence, not with the raw error. *)
Theorem user_rejection_precedes_program_logic
    (options : RetryTransactionOptions) (w w1 : World) (t1 : list Event)
    (error : Error) :
  (0 <= orDefault (maxRetries options) 3)%Z ->
  tryBlock connection 0 w = (Rejected error, w1, t1) ->
  isProgramLogicError error = true ->
  includes (message error) "User rejected" = true ->
  retryTransaction connection options w
  = Some (Rejected (newError "Transaction was cancelled by user."), w1, t1)
  /\ attemptCount t1 = 1%nat.
Proof.
  intros Hmax Htry Hlogic Huser.
  pose proof (first_failure_is_final connection options w w1 t1 error
                Hmax Htry (programLogic_givesUp error Hlogic)) as Hrun.
  rewrite Huser in Hrun.
  destruct (tryBlock_trace connection 0 w _ _ _ Htry) as (Hone & _).
  auto.
Qed.

End GivingUp.

(** ** Traces of whole runs *)

Lemma sendResults_app (t1 t2 : list Event) :
  sendResults (t1 ++ t2) = sendResults t1 ++ sendResults t2.
Proof.
  induction t1 as [|[] t1 IH]; cbn; rewrite ?IH; reflexivity.
Qed.

Lemma randomDraws_app (t1 t2 : list Event) :
  randomDraws (t1 ++ t2) = randomDraws t1 ++ randomDraws t2.
Proof.
  induction t1 as [|[] t1 IH]; cbn; rewrite ?IH; reflexivity.
Qed.

Lemma backoffDelays_app (t1 t2 : list Event) :
  backoffDelays (t1 ++ t2) = backoffDelays t1 ++ backoffDelays t2.
Proof.
  induction t1 as [|[| | | |[]] t1 IH]; cbn; rewrite ?IH; reflexivity.
Qed.

Lemma attemptCount_app (t1 t2 : list Event) :
  attemptCount (t1 ++ t2) = (attemptCount t1 + attemptCount t2)%nat.
Proof.
  induction t1 as [|[] t1 IH]; cbn; rewrite ?IH; reflexivity.
Qed.

Section RunFacts.

Context {World : Type}.
Variable connection : Env World.

(** The three ways out of the [catch] block. *)
Lemma catchBlock_cases (maxRetries : Z) (retryDelay : Q) (attempt : Z)
    (lastError : Error) (w : World) :
  (givesUpImmediately lastError = true
   /\ exists thrown,
       catchBlock connection maxRetries retryDelay attempt lastError w
       = (Rejected thrown, w, []))
  \/ (givesUpImmediately lastError = false
      /\ attempt = maxRetries
      /\ catchBlock connection maxRetries retryDelay attempt lastError w
         = (Fulfilled Break, w, []))
  \/ (givesUpImmediately lastError = false
      /\ attempt <> maxRetries
      /\ catchBlock connection maxRetries retryDelay attempt lastError w
         = (Fulfilled Continue,
            elapse connection
              (retryDelay * inject_Z (2 ^ attempt)
               + fst (random connection w) * 500)
              (snd (random connection w)),
            [EvRandom (fst (random connection w));
             EvSetTimeout Backoff
               (retryDelay * inject_Z (2 ^ attempt)
                + fst (random connection w) * 500)])).
Proof.
  destruct (givesUpImmediately lastError) eqn:Hgive.
  - left. split; [reflexivity|].
    rewrite catchBlock_gives_up by assumption. eauto.
  - right. unfold catchBlock. rewrite Hgive.
    destruct (Z.eqb_spec attempt maxRetries) as [Heq|Hne].
    + left. auto.
    + right. split; [reflexivity|]. split; [assumption|].
      unfold bind, mathRandom, awaitSetTimeout, ret.
      destruct (random connection w) as [r w']. reflexivity.
Qed.



End RunFacts.

(** ** Runs in which every attempt fails *)

Section Exhaustion.

Context {World : Type}.
Variable connection : Env World.

(** An attempt whose fetch succeeds and whose send fails. *)
Lemma tryBlock_send_fails (attempt : Z) (w w1 w2 : World)
    (reference : BlockhashWithExpiryBlockHeight) (error : Error) :
  getLatestBlockhash connection w = (Fulfilled reference, w1) ->
  transaction connection
    (if (0 <? attempt)%Z then elapse connection 300 w1 else w1)
  = (Rejected error, w2) ->
  exists t1,
    tryBlock connection attempt w = (Rejected error, w2, t1)
    /\ sendResults t1 = [Rejected error].
Proof.
  intros Hfetch Hsend.
  unfold tryBlock, bind, awaitGetLatestBlockhash, awaitTransaction,
    awaitSetTimeout, ret.
  rewrite Hfetch.
  destruct (0 <? attempt)%Z; rewrite Hsend; eexists; split; reflexivity.
Qed.

Variable N : Z.
Variable retryDelay : Q.

Hypothesis fetch_succeeds :
  forall w, exists reference w1,
    getLatestBlockhash connection w = (Fulfilled reference, w1).

Hypothesis send_fails_retryably :
  forall w, exists error w1,
    transaction connection w = (Rejected error, w1)
    /\ isRetryableError error = true
    /\ matchesFatalMarker error = false.

Lemma attemptLoop_exhausts (fuel : nat) :
  forall (attempt : Z) (lastError : Error) (w : World),
    (attempt <= N)%Z ->
    (Z.to_nat (N + 1 - attempt) <= fuel)%nat ->
    exists error w' t,
      attemptLoop connection N retryDelay fuel attempt lastError w
      = Some (Rejected error, w', t)
      /\ sendCount t = Z.to_nat (N + 1 - attempt)
      /\ nth_error (sendResults t) (Z.to_nat (N - attempt))
         = Some (Rejected error).
Proof.
  induction fuel as [|fuel IH]; intros attempt lastError w Hle Hfuel; [lia|].
  rewrite attemptLoop_step by assumption.
  destruct (fetch_succeeds w) as (reference & w1 & Hfetch).
  destruct (send_fails_retryably
              (if (0 <? attempt)%Z then elapse connection 300 w1 else w1))
    as (error & w2 & Hsend & Hretry & Hfatal).
  destruct (tryBlock_send_fails attempt w w1 w2 reference error Hfetch Hsend)
    as (t1 & Htry & Hsent).
  rewrite Htry.
  assert (Hgive : givesUpImmediately error = false).
  { unfold givesUpImmediately. rewrite Hfatal, Hretry. reflexivity. }
  destruct (catchBlock_cases connection N retryDelay attempt error w2)
    as [(Hyes & _)|[(_ & Heq & Hcatch)|(_ & Hne & Hcatch)]];
    [congruence| |]; rewrite Hcatch.
  - subst attempt. exists error, w2, (t1 ++ []).
    rewrite app_nil_r. unfold sendCount. rewrite Hsent.
    replace (N + 1 - N)%Z with 1%Z by lia.
    replace (N - N)%Z with 0%Z by lia.
    repeat split.
  - match goal with
    | |- context [attemptLoop _ _ _ _ _ _ ?x] =>
        destruct (IH (attempt + 1)%Z error x) as (e' & w' & t3 & Hrest & Hcount & Hlast);
          [lia|lia|]
    end.
    rewrite Hrest. exists e', w'. eexists. split; [reflexivity|].
    unfold sendCount in *.
    rewrite !sendResults_app, Hsent. cbn.
    rewrite Hcount. split.
    + lia.
    + replace (Z.to_nat (N - attempt)) with (S (Z.to_nat (N - (attempt + 1))))
        by lia.
      exact Hlast.
Qed.

End Exhaustion.

(** C1, as amended.  When every fetch of a reference succeeds and every
    call of the send function fails with an error that matches a retryable
    marker and none of the markers that end the call at once, a call with
    [maxRetries = N >= 0] invokes the send function exactly [N + 1] times
    and then rejects with the error of the last of these calls. *)
Theorem retryable_failures_use_every_attempt
    {World : Type} (connection : Env World) (N : Z) (delay : option Q)
    (w : World) :
  (0 <= N)%Z ->
  (forall w0, exists reference w1,
      getLatestBlockhash connection w0 = (Fulfilled reference, w1)) ->
  (forall w0, exists error w1,
      transaction connection w0 = (Rejected error, w1)
      /\ isRetryableError error = true
      /\ matchesFatalMarker error = false) ->
  exists error w' t,
    retryTransaction connection (mkOptions (Some N) delay) w
    = Some (Rejected error, w', t)
    /\ sendCount t = Z.to_nat (N + 1)
    /\ nth_error (sendResults t) (Z.to_nat N) = Some (Rejected error).
Proof.
  intros HN Hfetch Hsend. unfold retryTransaction. cbn [orDefault maxRetries].
  destruct (attemptLoop_exhausts connection N (orDefault delay 1000)
              Hfetch Hsend (Z.to_nat (N + 1)) 0%Z
              (newError "Transaction failed") w)
    as (error & w' & t & Hrun & Hcount & Hlast); [lia|lia|].
  exists error, w', t. rewrite Z.sub_0_r in Hcount, Hlast. auto.
Qed.

(** ** Backoff *)






Section Backoff.

Context {World : Type}.
Variable connection : Env World.

Hypothesis random_range :
  forall w, 0 <= fst (random connection w) < 1.


End Backoff.


(** ** Strings of digits *)

Local Open Scope string_scope.

Lemma length_append (a b : string) :
  String.length (a ++ b) = (String.length a + String.length b)%nat.
Proof.
  induction a as [|c a IH]; cbn; [reflexivity|]. rewrite IH. reflexivity.
Qed.

Lemma length_substring (s : string) :
  forall n m : nat,
    (n + m <= String.length s)%nat -> String.length (substring n m s) = m.
Proof.
  induction s as [|c s IH]; intros [|n] [|m] H; cbn in *;
    try reflexivity; try lia.
  - f_equal. apply (IH 0%nat m). lia.
  - apply (IH n 0%nat). lia.
  - apply (IH n (S m)). lia.
Qed.

Lemma isDigits_append (a b : string) :
  isDigits (a ++ b) = isDigits a && isDigits b.
Proof.
  induction a as [|c a IH]; cbn; [reflexivity|].
  rewrite IH, andb_assoc. reflexivity.
Qed.

Lemma isDigits_substring (s : string) :
  isDigits s = true -> forall n m : nat, isDigits (substring n m s) = true.
Proof.
  induction s as [|c s IH]; intros H [|n] [|m]; cbn in *; try reflexivity;
    apply andb_prop in H; destruct H as [Hc Hs].
  - rewrite Hc. apply (IH Hs 0%nat m).
  - apply (IH Hs n 0%nat).
  - apply (IH Hs n (S m)).
Qed.

Lemma isDigits_zeros (k : nat) : isDigits (zeros k) = true.
Proof.
  induction k as [|k IH]; cbn; [reflexivity|exact IH].
Qed.

Lemma isDigits_string_of_uint (d : Decimal.uint) :
  isDigits (NilEmpty.string_of_uint d) = true.
Proof.
  induction d; cbn; try reflexivity; assumption.
Qed.

Lemma isDigits_decimal (n : Z) : isDigits (decimal n) = true.
Proof.
  unfold decimal, NilZero.string_of_uint.
  destruct (N.to_uint (Z.to_N n)); [reflexivity|..];
    cbn; apply isDigits_string_of_uint.
Qed.

(** The digits that [toFixed(3)] writes below 10^21: a whole part of at
    least one digit, a point, three digits. *)
Lemma fixedDigits_three (n : Z) :
  exists whole fraction,
    fixedDigits n 3 = whole ++ "." ++ fraction
    /\ whole <> EmptyString
    /\ isDigits whole = true
    /\ isDigits fraction = true
    /\ String.length fraction = 3%nat.
Proof.
  unfold fixedDigits.
  set (m := if (String.length (decimal n) <=? 3)%nat
            then zeros (3 + 1 - String.length (decimal n)) ++ decimal n
            else decimal n).
  assert (Hlen : (4 <= String.length m)%nat).
  { subst m. destruct (Nat.leb_spec (String.length (decimal n)) 3) as [Hle|Hgt].
    - rewrite length_append.
      assert (Hz : forall k, String.length (zeros k) = k)
        by (induction k as [|k IH]; cbn; congruence).
      rewrite Hz. lia.
    - lia. }
  assert (Hdigits : isDigits m = true).
  { subst m. destruct (String.length (decimal n) <=? 3)%nat.
    - rewrite isDigits_append, isDigits_zeros, isDigits_decimal. reflexivity.
    - apply isDigits_decimal. }
  exists (substring 0 (String.length m - 3) m),
         (substring (String.length m - 3) 3 m).
  split; [reflexivity|].
  split.
  - intros Hempty.
    pose proof (length_substring m 0 (String.length m - 3)) as Hl.
    rewrite Hempty in Hl. cbn in Hl. lia.
  - split; [apply isDigits_substring; exact Hdigits|].
    split; [apply isDigits_substring; exact Hdigits|].
    apply length_substring. lia.
Qed.

Lemma toFixedDigits_threeDecimals (x : Number) :
  below1e21 x = true -> threeDecimals (toFixedDigits x 3).
Proof.
  destruct x as [s|s| |s m e]; cbn [below1e21]; try discriminate; intros Hbelow.
  - destruct (fixedDigits_three 0) as (whole & fraction & Heq & Hrest).
    exists EmptyString, whole, fraction. cbn [toFixedDigits].
    split; [exact Heq|]. split; [left; reflexivity|exact Hrest].
  - apply negb_true_iff in Hbelow. cbn [toFixedDigits]. rewrite Hbelow.
    destruct (fixedDigits_three (scaledRound m e 3))
      as (whole & fraction & Heq & Hrest).
    exists (if s then "-" else EmptyString), whole, fraction.
    split; [rewrite Heq; reflexivity|].
    split; [destruct s; auto|exact Hrest].
Qed.

Lemma toFixed_three (x : Number) : toFixed x 3 = Return (toFixedDigits x 3).
Proof. reflexivity. Qed.

(** ** Matching the balance pattern *)

Lemma dropPrefix_prefix (p q : string) :
  forall s r, dropPrefix (p ++ q) s = Some r -> prefix p s = true.
Proof.
  induction p as [|a p IH]; intros [|b s] r H; cbn in *;
    try reflexivity; try discriminate.
  destruct (Ascii.eqb_spec a b) as [->|Hne]; [|discriminate].
  destruct (ascii_dec b b) as [_|Hbb]; [|contradiction].
  eapply IH. eassumption.
Qed.

Lemma lamportsAt_prefix (s : string) (l : list string) :
  lamportsAt s = Some l -> prefix "insufficient lamports" s = true.
Proof.
  unfold lamportsAt. intros H.
  destruct (dropPrefix "insufficient lamports " s) as [r1|] eqn:Hdrop;
    [|discriminate].
  apply (dropPrefix_prefix "insufficient lamports" " " s r1). exact Hdrop.
Qed.

Lemma search_lamportsAt_includes (s : string) (l : list string) :
  search lamportsAt s = Some l -> includes s "insufficient lamports" = true.
Proof.
  induction s as [|c s IH]; intros H.
  - cbn in H. discriminate.
  - cbn [search] in H. cbn [includes].
    destruct (lamportsAt (String c s)) as [l'|] eqn:Hat.
    + rewrite (lamportsAt_prefix _ _ Hat). reflexivity.
    + rewrite (IH H). apply orb_true_r.
Qed.

Lemma dropPrefix_append (p r : string) : dropPrefix p (p ++ r) = Some r.
Proof.
  induction p as [|a p IH]; cbn; [reflexivity|].
  rewrite Ascii.eqb_refl. exact IH.
Qed.

Lemma span_digits (a r : string) :
  isDigits a = true ->
  match r with
  | EmptyString => true
  | String c _ => negb (isDigit c)
  end = true ->
  span isDigit (a ++ r) = (a, r).
Proof.
  intros Ha Hr. induction a as [|c a IH]; cbn in *.
  - destruct r as [|c r]; [reflexivity|].
    cbn. apply negb_true_iff in Hr. rewrite Hr. reflexivity.
  - apply andb_prop in Ha. destruct Ha as [Hc Ha].
    rewrite Hc, (IH Ha). reflexivity.
Qed.

(** The pattern matches a text that starts with the phrase, two runs of
    digits in their places, and captures the two runs. *)
Lemma lamportsAt_matches (available needed rest : string) :
  available <> EmptyString -> isDigits available = true ->
  needed <> EmptyString -> isDigits needed = true ->
  match rest with
  | EmptyString => true
  | String c _ => negb (isDigit c)
  end = true ->
  lamportsAt ("insufficient lamports " ++ available ++ ", need "
              ++ needed ++ rest)
  = Some ["insufficient lamports " ++ available ++ ", need " ++ needed;
          available; needed].
Proof.
  intros Hne1 Hd1 Hne2 Hd2 Hrest. unfold lamportsAt.
  rewrite dropPrefix_append.
  rewrite (span_digits available (", need " ++ needed ++ rest) Hd1)
    by reflexivity.
  destruct available as [|c1 a1]; [contradiction|].
  rewrite dropPrefix_append.
  rewrite (span_digits needed rest Hd2 Hrest).
  destruct needed as [|c2 n2]; [contradiction|].
  reflexivity.
Qed.

(** ** Totality of the classifier and the formatter *)

(** C7.  [isRetryableError] gives a boolean and [formatTransactionError]
    returns a string for every error: no property of null is read, and
    [toFixed] is called within its range.  When the balance pattern does not
    match a message that mentions insufficient lamports, the result is the
    general balance sentence. *)
Theorem classifier_and_formatter_never_throw (error : Error) :
  (isRetryableError error = true \/ isRetryableError error = false)
  /\ (exists text, formatTransactionError error = Return text)
  /\ (hasErrorCode error = false ->
      includes (toLowerCase (message error)) "insufficient lamports" = true ->
      search lamportsAt (toLowerCase (message error)) = None ->
      formatTransactionError error
      = Return "Insufficient SOL balance to cover the bet amount and transaction fees.").
Proof.
  split; [destruct (isRetryableError error); auto|].
  split.
  - unfold formatTransactionError. cbv zeta.
    destruct (search lamportsAt (toLowerCase (message error))) as [l|];
      destruct (search errorCodeAt (message error)) as [l'|];
      cbn [truthy index bindJs];
      repeat (rewrite toFixed_three; cbn [bindJs]);
      repeat match goal with
             | |- context [if ?b then _ else _] => destruct b
             end;
      eauto.
  - intros Hcode Hmentions Hnomatch.
    apply hasErrorCode_false in Hcode.
    destruct Hcode as (Hc1 & Hc2 & Hc3 & Hc4 & Hc5).
    unfold formatTransactionError. cbv zeta.
    rewrite Hc1, Hc2, Hc3, Hc4, Hc5, Hmentions, Hnomatch. reflexivity.
Qed.

(** ** The balance message *)

(** C8, as amended.  When no program error code is present and the
    balance pattern captures the digit strings [available] and [needed] in
    the lower-cased message, the formatter parses both, divides each by
    1,000,000,000 and reports the two amounts and their difference with
    [toFixed(3)]: three digits after the point for every amount below
    10^21. *)
Theorem insufficient_lamports_amounts
    (error : Error) (whole available needed : string) :
  hasErrorCode error = false ->
  search lamportsAt (toLowerCase (message error))
  = Some [whole; available; needed] ->
  formatTransactionError error
  = Return ("Insufficient SOL balance. You have "
            ++ toFixedDigits (lamportsToSol available) 3
            ++ " SOL but need "
            ++ toFixedDigits (lamportsToSol needed) 3
            ++ " SOL. Please add "
            ++ toFixedDigits
                 (sub (lamportsToSol needed) (lamportsToSol available)) 3
            ++ " more SOL to your wallet.")
  /\ (below1e21 (lamportsToSol available) = true ->
      threeDecimals (toFixedDigits (lamportsToSol available) 3))
  /\ (below1e21 (lamportsToSol needed) = true ->
      threeDecimals (toFixedDigits (lamportsToSol needed) 3))
  /\ (below1e21 (sub (lamportsToSol needed) (lamportsToSol available)) = true ->
      threeDecimals
        (toFixedDigits
           (sub (lamportsToSol needed) (lamportsToSol available)) 3)).
Proof.
  intros Hcode Hmatch.
  split; [|repeat split; apply toFixedDigits_threeDecimals].
  pose proof (search_lamportsAt_includes _ _ Hmatch) as Hmentions.
  apply hasErrorCode_false in Hcode.
  destruct Hcode as (Hc1 & Hc2 & Hc3 & Hc4 & Hc5).
  unfold formatTransactionError. cbv zeta.
  rewrite Hc1, Hc2, Hc3, Hc4, Hc5, Hmentions, Hmatch.
  cbn [truthy index bindJs nth_error toStringValue].
  rewrite !toFixed_three. reflexivity.
Qed.

(** ** The confirmation race *)



(** ** Worked runs *)

Local Open Scope list_scope.

(** The reference discipline rejects a confirmation made against the
    reference of an earlier attempt, and a send without a fetch. *)
Example anchored_rejects_stale_reference :
  anchored None None
    [EvGetLatestBlockhash (Fulfilled (mkReference "old" 1));
     EvTransaction (Rejected (mkError "timeout"));
     EvGetLatestBlockhash (Fulfilled (mkReference "new" 2));
     EvTransaction (Fulfilled "sig");
     EvConfirmTransaction "sig" "old" 1 Pending]
  = false.
Proof. reflexivity. Qed.

Example anchored_rejects_send_without_fetch :
  anchored None None
    [EvGetLatestBlockhash (Fulfilled (mkReference "old" 1));
     EvTransaction (Rejected (mkError "timeout"));
     EvTransaction (Fulfilled "sig")]
  = false.
Proof. reflexivity. Qed.

(** C1 at three failing sends: [maxRetries = 2] and a send function that
    always fails with ["timeout"]. *)
Lemma retryable_failures_use_every_attempt_witness :
  exists error w' t,
    retryTransaction (scripted (alwaysFails "timeout") confirmed (fun _ => 0))
      (mkOptions (Some 2%Z) None) noCalls
    = Some (Rejected error, w', t)
    /\ sendCount t = Z.to_nat (2 + 1)
    /\ nth_error (sendResults t) (Z.to_nat 2) = Some (Rejected error).
Proof.
  apply (retryable_failures_use_every_attempt
           (scripted (alwaysFails "timeout") confirmed (fun _ => 0))
           2%Z None noCalls).
  - lia.
  - intros w0. do 2 eexists. reflexivity.
  - intros w0. do 2 eexists. repeat split; reflexivity.
Defined.

(** C1 as stated fails: ["network error: insufficient funds"] matches the
    retryable marker ["network error"], yet with [maxRetries = 3] the send
    function is invoked once, not four times. *)
Lemma retryable_marker_counterexample :
  isRetryableError (mkError "network error: insufficient funds") = true
  /\ retryTransaction
       (scripted (alwaysFails "network error: insufficient funds") confirmed
          (fun _ => 0))
       (mkOptions (Some 3%Z) None) noCalls
     = Some (Rejected (mkError "network error: insufficient funds"),
             mkCalls 1 1 0,
             firstAttemptOnly "network error: insufficient funds")
  /\ sendCount (firstAttemptOnly "network error: insufficient funds") = 1%nat
  /\ sendCount (firstAttemptOnly "network error: insufficient funds")
     <> Z.to_nat (3 + 1).
Proof.
  split; [reflexivity|]. split; [vm_compute; reflexivity|].
  split; [reflexivity|]. vm_compute. discriminate.
Qed.

(** C2 at the numeric code 6001. *)
Lemma program_logic_error_is_final_witness :
  retryTransaction
    (scripted (alwaysFails "Error Number: 6001") confirmed (fun _ => 0))
    (mkOptions (Some 3%Z) None) noCalls
  = Some (Rejected (mkError "Error Number: 6001"), mkCalls 1 1 0,
          firstAttemptOnly "Error Number: 6001")
  /\ attemptCount (firstAttemptOnly "Error Number: 6001") = 1%nat
  /\ (sendCount (firstAttemptOnly "Error Number: 6001") <= 1)%nat.
Proof.
  apply (program_logic_error_is_final
           (scripted (alwaysFails "Error Number: 6001") confirmed (fun _ => 0))
           (mkOptions (Some 3%Z) None) noCalls (mkCalls 1 1 0)
           (firstAttemptOnly "Error Number: 6001")
           (mkError "Error Number: 6001")).
  - cbn. lia.
  - reflexivity.
  - reflexivity.
  - reflexivity.
Defined.

(** C2 as stated fails: a message with the code 6001 and ['User rejected']
    is not rejected with the raw error. *)
Lemma program_logic_raw_error_counterexample :
  isProgramLogicError (mkError "Error Number: 6001. User rejected the request.")
  = true
  /\ retryTransaction
       (scripted (alwaysFails "Error Number: 6001. User rejected the request.")
          confirmed (fun _ => 0))
       (mkOptions (Some 3%Z) None) noCalls
     = Some (Rejected (mkError "Transaction was cancelled by user."),
             mkCalls 1 1 0,
             firstAttemptOnly "Error Number: 6001. User rejected the request.")
  /\ mkError "Transaction was cancelled by user."
     <> mkError "Error Number: 6001. User rejected the request.".
Proof.
  split; [reflexivity|]. split; [vm_compute; reflexivity|]. discriminate.
Qed.

(** C3 at the message of a wallet that declines. *)
Lemma user_rejection_gets_the_fixed_sentence_witness :
  retryTransaction
    (scripted (alwaysFails "User rejected the request.") confirmed (fun _ => 0))
    (mkOptions None None) noCalls
  = Some (Rejected (newError "Transaction was cancelled by user."),
          mkCalls 1 1 0, firstAttemptOnly "User rejected the request.")
  /\ attemptCount (firstAttemptOnly "User rejected the request.") = 1%nat
  /\ formatTransactionError (mkError "USER REJECTED the request")
     = Return "Transaction was cancelled by user."%string.
Proof.
  apply (user_rejection_gets_the_fixed_sentence
           (scripted (alwaysFails "User rejected the request.") confirmed
              (fun _ => 0))
           (mkOptions None None) noCalls (mkCalls 1 1 0)
           (firstAttemptOnly "User rejected the request.")
           (mkError "User rejected the request.")
           (mkError "USER REJECTED the request")).
  - cbn. lia.
  - reflexivity.
  - reflexivity.
  - reflexivity.
  - reflexivity.
Defined.

(** C3 as stated fails: in lower case the phrase is not recognised by
    [retryTransaction], which rejects with the raw error; and the formatter
    tests for insufficient funds before it tests for the phrase. *)
Lemma user_rejected_casing_counterexample :
  includes (toLowerCase "user rejected the request") "user rejected" = true
  /\ retryTransaction
       (scripted (alwaysFails "user rejected the request") confirmed
          (fun _ => 0))
       (mkOptions (Some 3%Z) None) noCalls
     = Some (Rejected (mkError "user rejected the request"), mkCalls 1 1 0,
             firstAttemptOnly "user rejected the request")
  /\ mkError "user rejected the request"
     <> newError "Transaction was cancelled by user."
  /\ includes (toLowerCase "User rejected: insufficient funds") "user rejected"
     = true
  /\ formatTransactionError (mkError "User rejected: insufficient funds")
     = Return "Insufficient SOL balance to cover transaction and fees."%string.
Proof.
  split; [reflexivity|]. split; [vm_compute; reflexivity|].
  split; [discriminate|]. split; reflexivity.
Qed.




(** C5 at a message with both markers. *)
Lemma user_rejection_precedes_program_logic_witness :
  retryTransaction
    (scripted (alwaysFails "GameAlreadyStarted. User rejected the request.")
       confirmed (fun _ => 0))
    (mkOptions (Some 3%Z) None) noCalls
  = Some (Rejected (newError "Transaction was cancelled by user."),
          mkCalls 1 1 0,
          firstAttemptOnly "GameAlreadyStarted. User rejected the request.")
  /\ attemptCount
       (firstAttemptOnly "GameAlreadyStarted. User rejected the request.")
     = 1%nat.
Proof.
  apply (user_rejection_precedes_program_logic
           (scripted
              (alwaysFails "GameAlreadyStarted. User rejected the request.")
              confirmed (fun _ => 0))
           (mkOptions (Some 3%Z) None) noCalls (mkCalls 1 1 0)
           (firstAttemptOnly "GameAlreadyStarted. User rejected the request.")
           (mkError "GameAlreadyStarted. User rejected the request.")).
  - cbn. lia.
  - reflexivity.
  - reflexivity.
  - reflexivity.
Defined.

(** C5 as stated fails: with both a program-logic marker and the
    cancellation marker in the message, the call rejects with the
    cancellation sentence and not with the raw error. *)
Lemma priority_order_counterexample :
  isProgramLogicError (mkError "RoomNotAvailable: User rejected") = true
  /\ includes "RoomNotAvailable: User rejected" "User rejected" = true
  /\ retryTransaction
       (scripted (alwaysFails "RoomNotAvailable: User rejected") confirmed
          (fun _ => 0))
       (mkOptions (Some 3%Z) None) noCalls
     = Some (Rejected (newError "Transaction was cancelled by user."),
             mkCalls 1 1 0, firstAttemptOnly "RoomNotAvailable: User rejected")
  /\ newError "Transaction was cancelled by user."
     <> mkError "RoomNotAvailable: User rejected".
Proof.
  split; [reflexivity|]. split; [reflexivity|].
  split; [vm_compute; reflexivity|]. discriminate.
Qed.


(** C7 at a message that mentions insufficient lamports without
    amounts. *)
Lemma classifier_and_formatter_never_throw_witness :
  search lamportsAt (toLowerCase "Transfer: insufficient lamports") = None
  /\ formatTransactionError (mkError "Transfer: insufficient lamports")
     = Return "Insufficient SOL balance to cover the bet amount and transaction fees."%string.
Proof.
  split; [reflexivity|].
  apply (proj2 (proj2 (classifier_and_formatter_never_throw
                         (mkError "Transfer: insufficient lamports"))));
    reflexivity.
Defined.

(** C8 at half a SOL available and one SOL needed. *)
Lemma insufficient_lamports_amounts_witness :
  formatTransactionError
    (mkError "Transfer: insufficient lamports 500000000, need 1000000000")
  = Return "Insufficient SOL balance. You have 0.500 SOL but need 1.000 SOL. Please add 0.500 more SOL to your wallet."%string
  /\ threeDecimals (toFixedDigits (lamportsToSol "500000000") 3)
  /\ threeDecimals (toFixedDigits (lamportsToSol "1000000000") 3)
  /\ threeDecimals
       (toFixedDigits
          (sub (lamportsToSol "1000000000") (lamportsToSol "500000000")) 3).
Proof.
  destruct (insufficient_lamports_amounts
              (mkError "Transfer: insufficient lamports 500000000, need 1000000000")
              "insufficient lamports 500000000, need 1000000000"
              "500000000" "1000000000" eq_refl eq_refl)
    as (Hformat & Havailable & Hneeded & Hshortage).
  split; [exact Hformat|].
  split; [exact (Havailable eq_refl)|].
  split; [exact (Hneeded eq_refl)|exact (Hshortage eq_refl)].
Defined.

(** C8 as stated fails: the amounts are written with three digits after
    the point, not two. *)
Lemma two_decimal_precision_counterexample :
  formatTransactionError
    (mkError "Transfer: insufficient lamports 500000000, need 1000000000")
  = Return "Insufficient SOL balance. You have 0.500 SOL but need 1.000 SOL. Please add 0.500 more SOL to your wallet."%string
  /\ toFixed (lamportsToSol "500000000") 2 = Return "0.50"%string
  /\ toFixed (lamportsToSol "1000000000") 2 = Return "1.00"%string
  /\ formatTransactionError
       (mkError "Transfer: insufficient lamports 500000000, need 1000000000")
     <> Return "Insufficient SOL balance. You have 0.50 SOL but need 1.00 SOL. Please add 0.50 more SOL to your wallet."%string.
Proof.
  split; [vm_compute; reflexivity|].
  split; [vm_compute; reflexivity|].
  split; [vm_compute; reflexivity|].
  vm_compute. discriminate.
Qed.

(** C10 at [maxRetries = -1]. *)
Lemma negative_maxRetries_makes_no_attempt_witness :
  retryTransaction
    (scripted (failsThenSucceeds 0 "none") confirmed (fun _ => 0))
    (mkOptions (Some (-1)%Z) None) noCalls
  = Some (Rejected (newError "Transaction failed"), noCalls, []).
Proof.
  apply (negative_maxRetries_makes_no_attempt
           (scripted (failsThenSucceeds 0 "none") confirmed (fun _ => 0))
           (-1)%Z None noCalls).
  lia.
Defined.

(** * Further properties of the code *)

(** ** Substrings *)

Local Open Scope string_scope.

Lemma prefix_spec (n s : string) :
  prefix n s = true <-> exists post, s = n ++ post.
Proof.
  revert s. induction n as [|a n IH]; intros s.
  - split; [intros _; exists s; reflexivity|intros _; destruct s; reflexivity].
  - destruct s as [|b s]; cbn.
    + split; [discriminate|intros [post H]; discriminate].
    + destruct (ascii_dec a b) as [->|Hne].
      * rewrite IH. split; intros [post H]; exists post.
        -- rewrite H. reflexivity.
        -- injection H as H. exact H.
      * split; [discriminate|].
        intros [post H]. injection H as Hab Htail. congruence.
Qed.

Lemma append_assoc (a b c : string) : (a ++ b) ++ c = a ++ b ++ c.
Proof.
  induction a as [|x a IH]; cbn; [reflexivity|]. rewrite IH. reflexivity.
Qed.

(** [includes] is the substring relation. *)
Lemma includes_spec (s n : string) :
  includes s n = true <-> exists pre post, s = pre ++ n ++ post.
Proof.
  induction s as [|c s IH]; cbn [includes].
  - rewrite orb_false_r, prefix_spec. split.
    + intros [post H]. exists EmptyString, post. exact H.
    + intros (pre & post & H). destruct pre as [|x pre]; [|discriminate].
      exists post. exact H.
  - rewrite orb_true_iff, prefix_spec, IH. split.
    + intros [[post H]|(pre & post & H)].
      * exists EmptyString, post. exact H.
      * exists (String c pre), post. rewrite H. reflexivity.
    + intros (pre & post & H). destruct pre as [|x pre].
      * left. exists post. exact H.
      * right. injection H as _ H. exists pre, post. exact H.
Qed.

Lemma includes_wrapped (s n before after : string) :
  includes s n = true -> includes (before ++ s ++ after) n = true.
Proof.
  rewrite !includes_spec. intros (pre & post & ->).
  exists (before ++ pre), (post ++ after).
  rewrite !append_assoc. reflexivity.
Qed.

Lemma includes_part (s a n b : string) :
  includes s (a ++ n ++ b) = true -> includes s n = true.
Proof.
  rewrite !includes_spec. intros (pre & post & ->).
  exists (pre ++ a), (b ++ post).
  rewrite !append_assoc. reflexivity.
Qed.

Lemma toLowerCase_append (a b : string) :
  toLowerCase (a ++ b) = toLowerCase a ++ toLowerCase b.
Proof.
  induction a as [|x a IH]; cbn; [reflexivity|]. rewrite IH. reflexivity.
Qed.

Lemma includes_toLowerCase (s n : string) :
  includes s n = true -> includes (toLowerCase s) (toLowerCase n) = true.
Proof.
  rewrite !includes_spec. intros (pre & post & ->).
  exists (toLowerCase pre), (toLowerCase post).
  rewrite !toLowerCase_append. reflexivity.
Qed.

(** ** Which errors are retried *)

Lemma accountDidNotSerialize_is_retryable (error : Error) :
  includes (message error) "AccountDidNotSerialize" = true ->
  isRetryableError error = true.
Proof.
  intros H. apply includes_toLowerCase in H.
  unfold isRetryableError. apply existsb_exists.
  exists "accountdidnotserialize". split; [cbn; tauto|exact H].
Qed.

(** X1.  An error ends the call at once exactly when it matches a fatal
    marker or [isRetryableError] rejects it: the exception made for
    ['AccountDidNotSerialize'] on line 106 changes nothing, since that
    marker is itself retryable.  So at an attempt other than the last the
    [catch] block goes on to another attempt exactly for the retryable
    errors without a fatal marker. *)
Theorem retry_decision (error : Error) :
  givesUpImmediately error
  = matchesFatalMarker error || negb (isRetryableError error)
  /\ forall (World : Type) (connection : Env World)
       (maxRetries : Z) (retryDelay : Q) (attempt : Z) (w : World),
      attempt <> maxRetries ->
      (fst (fst (catchBlock connection maxRetries retryDelay attempt error w))
       = Fulfilled Continue
       <-> isRetryableError error = true /\ matchesFatalMarker error = false).
Proof.
  assert (Hgive : givesUpImmediately error
                  = matchesFatalMarker error || negb (isRetryableError error)).
  { unfold givesUpImmediately. cbv zeta.
    destruct (includes (message error) "AccountDidNotSerialize") eqn:Hmarker.
    - rewrite (accountDidNotSerialize_is_retryable error Hmarker). reflexivity.
    - rewrite andb_true_r. reflexivity. }
  split; [exact Hgive|].
  intros World connection maxRetries retryDelay attempt w Hne.
  destruct (catchBlock_cases connection maxRetries retryDelay attempt error w)
    as [(Hyes & thrown & Hcatch)|[(_ & Heq & _)|(Hno & _ & Hcatch)]];
    [|contradiction|]; rewrite Hcatch; cbn [fst]; rewrite Hgive in *.
  - split; [discriminate|]. intros [Hretry Hfatal].
    rewrite Hretry, Hfatal in Hyes. discriminate.
  - split; [|reflexivity]. intros _.
    apply orb_false_elim in Hno. destruct Hno as [Hfatal Hretry].
    apply negb_false_iff in Hretry. auto.
Qed.

(** X2.  Text added in front of a message and after it does not hide a
    marker: a retryable error stays retryable, a program-logic error stays
    one, and an error with a fatal marker still ends the call at once. *)
Theorem markers_survive_wrapping
    (before : string) (error : Error) (after : string) :
  (isRetryableError error = true ->
   isRetryableError (wrapped before error after) = true)
  /\ (isProgramLogicError error = true ->
      isProgramLogicError (wrapped before error after) = true)
  /\ (matchesFatalMarker error = true ->
      givesUpImmediately (wrapped before error after) = true).
Proof.
  assert (Hlogic : isProgramLogicError error = true ->
                   isProgramLogicError (wrapped before error after) = true).
  { unfold isProgramLogicError, wrapped. cbn [message]. intros H.
    repeat (apply orb_true_iff in H; destruct H as [H|H]);
      apply (includes_wrapped _ _ before after) in H; rewrite H;
      rewrite ?orb_true_r; reflexivity. }
  split; [|split; [exact Hlogic|]].
  - unfold isRetryableError, wrapped. cbn [message]. cbv zeta.
    rewrite !existsb_exists. intros (marker & Hin & H).
    exists marker. split; [exact Hin|].
    rewrite !toLowerCase_append. apply includes_wrapped. exact H.
  - intros H. unfold givesUpImmediately. cbv zeta.
    apply orb_true_iff. left.
    unfold matchesFatalMarker in *.
    apply orb_true_iff in H. destruct H as [H|H];
      [|rewrite (Hlogic H); apply orb_true_r].
    unfold wrapped. cbn [message].
    repeat (apply orb_true_iff in H; destruct H as [H|H]);
      apply (includes_wrapped _ _ before after) in H; rewrite H;
      rewrite ?orb_true_r; reflexivity.
Qed.

(** ** What a formatted sentence says about the error *)

(** Walks down the tests of [formatTransactionError] in [Hf], leaving one
    goal for each [return] of the function, with the tests that led to it
    among the hypotheses. *)
Ltac format_returns Hf :=
  unfold formatTransactionError in Hf; cbv zeta in Hf;
  match type of Hf with
  | context [search lamportsAt ?m] => destruct (search lamportsAt m) as [?l|]
  end;
  match type of Hf with
  | context [search errorCodeAt ?m] => destruct (search errorCodeAt m) as [?l|]
  end;
  cbn [truthy] in Hf;
  repeat first
    [ progress cbn [index bindJs] in Hf
    | rewrite toFixed_three in Hf
    | match type of Hf with
      | (if ?b then _ else _) = _ => destruct b eqn:?
      end ].

(** Closes a goal in which the returned text [Hf] is not in the list
    [Hin]. *)
Ltac other_sentence Hf Hin :=
  injection Hf as Hf; subst; cbn in Hin;
  repeat (destruct Hin as [Hin|Hin]; [try discriminate Hin|]);
  try contradiction.

(** X3.  The sentences that tell the user to try again, or that the account
    data is stale, are shown only for errors that [isRetryableError]
    accepts. *)
Theorem transient_sentence_means_retryable (error : Error) (text : string) :
  formatTransactionError error = Return text ->
  In text transientSentences ->
  isRetryableError error = true.
Proof.
  intros Hf Hin. format_returns Hf; other_sentence Hf Hin;
    unfold isRetryableError; cbv zeta; apply existsb_exists;
    repeat match goal with
           | H : (_ || _) = true |- _ =>
               apply orb_true_iff in H; destruct H as [H|H]
           end;
    match goal with
    | H : includes (toLowerCase _) ?marker = true |- _ =>
        exists marker; split; [cbn; tauto|exact H]
    end.
Qed.

(** X4.  The four sentences for game-state errors of the program are shown
    only for errors that [retryTransaction] treats as program-logic errors
    and does not retry. *)
Theorem game_state_sentence_means_no_retry (error : Error) (text : string) :
  formatTransactionError error = Return text ->
  In text gameStateSentences ->
  isProgramLogicError error = true /\ givesUpImmediately error = true.
Proof.
  intros Hf Hin.
  enough (Hlogic : isProgramLogicError error = true)
    by (split; [exact Hlogic|apply programLogic_givesUp; exact Hlogic]).
  format_returns Hf; other_sentence Hf Hin;
    repeat match goal with
           | H : (_ || _) = true |- _ =>
               apply orb_true_iff in H; destruct H as [H|H]
           end;
    try match goal with
        | H : includes _ "Error Code: RoomNotAvailable" = true |- _ =>
            apply (includes_part _ "Error Code: " "RoomNotAvailable"
                     EmptyString) in H
        | H : includes _ "Error Code: GameAlreadyStarted" = true |- _ =>
            apply (includes_part _ "Error Code: " "GameAlreadyStarted"
                     EmptyString) in H
        | H : includes _ "Error Code: InvalidGameState" = true |- _ =>
            apply (includes_part _ "Error Code: " "InvalidGameState"
                     EmptyString) in H
        | H : includes _ "Error Code: SelectionTimeExpired" = true |- _ =>
            apply (includes_part _ "Error Code: " "SelectionTimeExpired"
                     EmptyString) in H
        end;
    unfold isProgramLogicError;
    match goal with
    | H : includes (message error) _ = true |- _ =>
        rewrite H; rewrite ?orb_true_r; reflexivity
    end.
Qed.

(** ** The shape of every run *)

Local Open Scope list_scope.


Section RunShape.

Context {World : Type}.
Variable connection : Env World.


Lemma catchBlock_trace (maxRetries : Z) (retryDelay : Q) (attempt : Z)
    (lastError : Error) (w : World) :
  forall c w2 t2,
    catchBlock connection maxRetries retryDelay attempt lastError w
    = (c, w2, t2) ->
    hasConfirmedOk t2 = false
    /\ attemptCount t2 = 0%nat
    /\ sendResults t2 = []
    /\ match c with
       | Fulfilled Continue =>
           attempt <> maxRetries
           /\ length (backoffDelays t2) = 1%nat
           /\ length (randomDraws t2) = 1%nat
       | _ => backoffDelays t2 = [] /\ randomDraws t2 = []
       end.
Proof.
  intros c w2 t2 Hcatch.
  destruct (catchBlock_cases connection maxRetries retryDelay attempt
              lastError w)
    as [(_ & thrown & H)|[(_ & _ & H)|(_ & Hne & H)]];
    rewrite H in Hcatch; injection Hcatch as <- <- <-; cbn;
    repeat split; auto.
Qed.

(** The counts of a run that starts at an attempt within the budget. *)
Lemma attemptLoop_counts (maxRetries : Z) (retryDelay : Q) (fuel : nat) :
  forall (attempt : Z) (lastError : Error) (w : World) r w' t,
    (attempt <= maxRetries)%Z ->
    attemptLoop connection maxRetries retryDelay fuel attempt lastError w
    = Some (r, w', t) ->
    attemptCount t = S (length (backoffDelays t))
    /\ length (randomDraws t) = length (backoffDelays t)
    /\ (Z.of_nat (length (backoffDelays t)) <= maxRetries - attempt)%Z
    /\ (sendCount t <= attemptCount t)%nat.
Proof.
  induction fuel as [|fuel IH]; intros attempt lastError w r w' t Hle Hrun.
  - apply Z.leb_le in Hle. cbn in Hrun. rewrite Hle in Hrun. discriminate.
  - rewrite attemptLoop_step in Hrun by assumption.
    destruct (tryBlock connection attempt w) as [[[signature|error] w1] t1]
      eqn:Htry;
      destruct (tryBlock_trace connection attempt w _ _ _ Htry)
        as (Hone & Hsend & Hnone & Hdraws & _).
    + injection Hrun as <- <- <-. rewrite Hnone, Hdraws, Hone. cbn.
      repeat apply conj; lia.
    + destruct (catchBlock connection maxRetries retryDelay attempt error w1)
        as [[[[|]|thrown] w2] t2] eqn:Hcatch;
        destruct (catchBlock_trace _ _ _ _ _ _ _ _ Hcatch)
          as (_ & Hzero & Hsent & Hshape).
      * destruct Hshape as [Hb Hd]. injection Hrun as <- <- <-.
        unfold sendCount in *.
        rewrite attemptCount_app, backoffDelays_app, randomDraws_app,
          sendResults_app, Hone, Hzero, Hnone, Hdraws, Hb, Hd, Hsent.
        rewrite ?app_nil_r. cbn. repeat apply conj; lia.
      * destruct Hshape as (Hne & Hb & Hd).
        destruct (attemptLoop connection maxRetries retryDelay fuel
                    (attempt + 1) error w2) as [[[r3 w3] t3]|] eqn:Hrest;
          [|discriminate].
        injection Hrun as <- <- <-.
        assert (Hnext : (attempt + 1 <= maxRetries)%Z) by lia.
        destruct (IH _ _ _ _ _ _ Hnext Hrest) as (Ha & Hl & Hbound & Hs).
        unfold sendCount in *.
        rewrite !attemptCount_app, !backoffDelays_app, !randomDraws_app,
          !sendResults_app, Hone, Hzero, Hnone, Hdraws, Hsent.
        cbn [app]. rewrite ?length_app, ?Hb, ?Hd, ?Ha.
        repeat apply conj; lia.
      * destruct Hshape as [Hb Hd]. injection Hrun as <- <- <-.
        unfold sendCount in *.
        rewrite attemptCount_app, backoffDelays_app, randomDraws_app,
          sendResults_app, Hone, Hzero, Hnone, Hdraws, Hb, Hd, Hsent.
        rewrite ?app_nil_r. cbn. repeat apply conj; lia.
Qed.


End RunShape.

(** X5.  In every run with a non-negative [maxRetries], one backoff lies
    between two consecutive attempts and [Math.random] is called once for
    each backoff and never otherwise; so the attempts number one more than
    the backoffs, at most [maxRetries + 1], and the send function is not
    invoked more often than attempts are begun. *)
Theorem run_counts
    {World : Type} (connection : Env World)
    (options : RetryTransactionOptions) (w w' : World)
    (outcome : Outcome TransactionSignature) (t : list Event) :
  (0 <= orDefault (maxRetries options) 3)%Z ->
  retryTransaction connection options w = Some (outcome, w', t) ->
  attemptCount t = S (length (backoffDelays t))
  /\ length (randomDraws t) = length (backoffDelays t)
  /\ (attemptCount t <= Z.to_nat (orDefault (maxRetries options) 3 + 1)%Z)%nat
  /\ (sendCount t <= attemptCount t)%nat.
Proof.
  intros Hmax Hrun. unfold retryTransaction in Hrun.
  destruct (attemptLoop_counts connection _ _ _ _ _ _ _ _ _ Hmax Hrun)
    as (Hattempts & Hdraws & Hbound & Hsends).
  repeat apply conj; try assumption. lia.
Qed.


(** ** A ledger that cannot be reached *)

Section Unreachable.

Context {World : Type}.
Variable connection : Env World.

Lemma tryBlock_fetch_fails (attempt : Z) (w w1 : World) (error : Error) :
  getLatestBlockhash connection w = (Rejected error, w1) ->
  tryBlock connection attempt w
  = (Rejected error, w1, [EvGetLatestBlockhash (Rejected error)]).
Proof.
  intros Hfetch. unfold tryBlock, bind, awaitGetLatestBlockhash.
  rewrite Hfetch. reflexivity.
Qed.

Variable N : Z.
Variable retryDelay : Q.

Hypothesis fetch_fails_retryably :
  forall w, exists error w1,
    getLatestBlockhash connection w = (Rejected error, w1)
    /\ isRetryableError error = true
    /\ matchesFatalMarker error = false.

Lemma attemptLoop_unreachable (fuel : nat) :
  forall (attempt : Z) (lastError : Error) (w : World),
    (attempt <= N)%Z ->
    (Z.to_nat (N + 1 - attempt) <= fuel)%nat ->
    exists error w' t,
      attemptLoop connection N retryDelay fuel attempt lastError w
      = Some (Rejected error, w', t)
      /\ sendResults t = []
      /\ attemptCount t = Z.to_nat (N + 1 - attempt).
Proof.
  induction fuel as [|fuel IH]; intros attempt lastError w Hle Hfuel; [lia|].
  rewrite attemptLoop_step by assumption.
  destruct (fetch_fails_retryably w) as (error & w1 & Hfetch & Hretry & Hfatal).
  rewrite (tryBlock_fetch_fails attempt w w1 error Hfetch).
  assert (Hgive : givesUpImmediately error = false).
  { unfold givesUpImmediately. rewrite Hfatal, Hretry. reflexivity. }
  destruct (catchBlock_cases connection N retryDelay attempt error w1)
    as [(Hyes & _)|[(_ & Heq & Hcatch)|(_ & Hne & Hcatch)]];
    [congruence| |]; rewrite Hcatch.
  - subst attempt. do 3 eexists. split; [reflexivity|].
    cbn. split; [reflexivity|lia].
  - match goal with
    | |- context [attemptLoop _ _ _ _ _ _ ?x] =>
        destruct (IH (attempt + 1)%Z error x)
          as (e' & w' & t3 & Hrest & Hsent & Hcount); [lia|lia|]
    end.
    rewrite Hrest. do 3 eexists. split; [reflexivity|].
    cbn. rewrite Hsent, Hcount. split; [reflexivity|lia].
Qed.

End Unreachable.

(** X7.  When every [getLatestBlockhash] rejects with an error that is
    retryable and matches no fatal marker, a call with
    [maxRetries = N >= 0] begins [N + 1] attempts, never invokes the send
    function, and rejects. *)
Theorem unreachable_ledger_never_sends
    {World : Type} (connection : Env World) (N : Z) (delay : option Q)
    (w : World) :
  (0 <= N)%Z ->
  (forall w0, exists error w1,
      getLatestBlockhash connection w0 = (Rejected error, w1)
      /\ isRetryableError error = true
      /\ matchesFatalMarker error = false) ->
  exists error w' t,
    retryTransaction connection (mkOptions (Some N) delay) w
    = Some (Rejected error, w', t)
    /\ sendResults t = []
    /\ attemptCount t = Z.to_nat (N + 1).
Proof.
  intros HN Hfetch. unfold retryTransaction. cbn [orDefault maxRetries].
  destruct (attemptLoop_unreachable connection N (orDefault delay 1000)
              Hfetch (Z.to_nat (N + 1)) 0%Z
              (newError "Transaction failed") w)
    as (error & w' & t & Hrun & Hsent & Hcount); [lia|lia|].
  exists error, w', t. rewrite Z.sub_0_r in Hcount. auto.
Qed.

(** ** Failures followed by a success *)

Section HappyPath.

Context {World : Type}.
Variable connection : Env World.


End HappyPath.

Section Recovery.

Variable msg : string.
Variable failures : nat.
Variable numbers : nat -> Q.
Variable N : Z.
Variable retryDelay : Q.

Hypothesis msg_retryable : isRetryableError (mkError msg) = true.
Hypothesis msg_not_fatal : matchesFatalMarker (mkError msg) = false.


End Recovery.


(** ** The time spent backing off *)




(** ** Further worked runs *)

(** X1 at an error that only the marker ['AccountDidNotSerialize'] makes
    retryable. *)
Lemma retry_decision_witness :
  givesUpImmediately (mkError "AccountDidNotSerialize: stale data") = false
  /\ fst (fst (catchBlock
                 (scripted (alwaysFails "none") confirmed (fun _ => 0))
                 3 1000 0 (mkError "AccountDidNotSerialize: stale data")
                 noCalls))
     = Fulfilled Continue.
Proof.
  destruct (retry_decision (mkError "AccountDidNotSerialize: stale data"))
    as [Hgive Hcontinue].
  split; [rewrite Hgive; reflexivity|].
  apply (Hcontinue Calls
           (scripted (alwaysFails "none") confirmed (fun _ => 0))
           3%Z 1000 0%Z noCalls).
  - discriminate.
  - split; reflexivity.
Defined.

(** X2 at the name of a wallet error in front of the message. *)
Lemma markers_survive_wrapping_witness :
  isRetryableError
    (wrapped "WalletSendTransactionError: "
       (mkError "Network request failed") " (attempt 1)") = true
  /\ isProgramLogicError
       (wrapped "WalletSendTransactionError: "
          (mkError "Error Number: 6003") " (attempt 1)") = true
  /\ givesUpImmediately
       (wrapped "WalletSendTransactionError: "
          (mkError "User rejected the request.") " (attempt 1)") = true.
Proof.
  split; [|split].
  - apply (proj1 (markers_survive_wrapping "WalletSendTransactionError: "
                    (mkError "Network request failed") " (attempt 1)")).
    reflexivity.
  - apply (proj1 (proj2 (markers_survive_wrapping
                           "WalletSendTransactionError: "
                           (mkError "Error Number: 6003") " (attempt 1)"))).
    reflexivity.
  - apply (proj2 (proj2 (markers_survive_wrapping
                           "WalletSendTransactionError: "
                           (mkError "User rejected the request.")
                           " (attempt 1)"))).
    reflexivity.
Defined.

(** X3 at the error of the confirmation timer. *)
Lemma transient_sentence_means_retryable_witness :
  formatTransactionError (newError "Transaction confirmation timeout")
  = Return "Transaction timed out. Please try again."%string
  /\ isRetryableError (newError "Transaction confirmation timeout") = true.
Proof.
  split; [reflexivity|].
  apply (transient_sentence_means_retryable
           (newError "Transaction confirmation timeout")
           "Transaction timed out. Please try again.").
  - reflexivity.
  - right. right. left. reflexivity.
Defined.

(** X4 at an Anchor error for a room that is taken. *)
Lemma game_state_sentence_means_no_retry_witness :
  isProgramLogicError
    (mkError "AnchorError occurred. Error Code: RoomNotAvailable. Error Number: 6002.")
  = true
  /\ givesUpImmediately
       (mkError "AnchorError occurred. Error Code: RoomNotAvailable. Error Number: 6002.")
     = true.
Proof.
  apply (game_state_sentence_means_no_retry
           (mkError "AnchorError occurred. Error Code: RoomNotAvailable. Error Number: 6002.")
           "This room is no longer available for joining. It may be full, expired, or cancelled by the creator.").
  - reflexivity.
  - left. reflexivity.
Defined.

(** X5 at three failed attempts. *)
Lemma run_counts_witness :
  attemptCount threeFailedFetches = S (length (backoffDelays threeFailedFetches))
  /\ length (randomDraws threeFailedFetches)
     = length (backoffDelays threeFailedFetches)
  /\ (attemptCount threeFailedFetches <= Z.to_nat (2 + 1))%nat
  /\ (sendCount threeFailedFetches <= attemptCount threeFailedFetches)%nat.
Proof.
  apply (run_counts
           (scripted (alwaysFails "fetch failed") confirmed (fun _ => 1 # 2))
           (mkOptions (Some 2%Z) None) noCalls (mkCalls 3 3 2)
           (Rejected (mkError "fetch failed")) threeFailedFetches).
  - cbn. lia.
  - reflexivity.
Defined.


(** X7 at a ledger that answers every fetch with ["failed to get recent
    blockhash"], with [maxRetries = 2]. *)
Lemma unreachable_ledger_never_sends_witness :
  exists error w' t,
    retryTransaction (unreachableLedger "failed to get recent blockhash")
      (mkOptions (Some 2%Z) None) noCalls
    = Some (Rejected error, w', t)
    /\ sendResults t = []
    /\ attemptCount t = Z.to_nat (2 + 1).
Proof.
  apply (unreachable_ledger_never_sends
           (unreachableLedger "failed to get recent blockhash")
           2%Z None noCalls).
  - lia.
  - intros w0. do 2 eexists. repeat split; reflexivity.
Defined.



(** ** The cancellation sentence *)

Local Open Scope string_scope.

(** X10.  [formatTransactionError] shows the cancellation sentence exactly
    for the messages that hold "user rejected" in some casing and none of
    the markers it tests earlier. *)
Theorem cancellation_sentence_iff (error : Error) :
  formatTransactionError error = Return "Transaction was cancelled by user."
  <-> includes (toLowerCase (message error)) "user rejected" = true
      /\ testedBeforeUserRejected error = false.
Proof.
  split; [|intros [Huser Hearlier];
           apply formatTransactionError_userRejected; assumption].
  intros Hf.
  assert (Hin : In "Transaction was cancelled by user."
                   ["Transaction was cancelled by user."])
    by (left; reflexivity).
  remember "Transaction was cancelled by user." as text eqn:Htext in Hf, Hin at 1.
  clear Htext.
  format_returns Hf; other_sentence Hf Hin;
    (split; [reflexivity|]);
    repeat match goal with
           | H : (_ || _) = false |- _ =>
               apply orb_false_elim in H; destruct H
           end;
    unfold testedBeforeUserRejected, hasErrorCode; cbv zeta;
    repeat match goal with
           | H : includes _ _ = false |- _ => rewrite H; clear H
           end;
    reflexivity.
Qed.

(** X11.  When the first attempt fails with an error whose message holds
    ['User rejected'], the error that [retryTransaction] rejects with is
    not recognised as a cancellation by [formatTransactionError], which
    shows it in its general form. *)
Theorem cancellation_error_is_formatted_as_general
    {World : Type} (connection : Env World)
    (options : RetryTransactionOptions) (w w1 : World) (t1 : list Event)
    (error : Error) :
  (0 <= orDefault (maxRetries options) 3)%Z ->
  tryBlock connection 0 w = (Rejected error, w1, t1) ->
  includes (message error) "User rejected" = true ->
  exists thrown,
    retryTransaction connection options w = Some (Rejected thrown, w1, t1)
    /\ formatTransactionError thrown
       = Return "Transaction failed: Transaction was cancelled by user.".
Proof.
  intros Hmax Htry Huser.
  pose proof (first_failure_is_final connection options w w1 t1 error
                Hmax Htry (userRejected_givesUp error Huser)) as Hrun.
  rewrite Huser in Hrun.
  exists (newError "Transaction was cancelled by user.").
  split; [exact Hrun|reflexivity].
Qed.

(** X10 at a message in capitals. *)
Lemma cancellation_sentence_iff_witness :
  formatTransactionError (mkError "USER REJECTED the request")
  = Return "Transaction was cancelled by user.".
Proof.
  apply (proj2 (cancellation_sentence_iff
                  (mkError "USER REJECTED the request"))).
  split; reflexivity.
Defined.

(** X11 at the message of a wallet that declines. *)
Lemma cancellation_error_is_formatted_as_general_witness :
  exists thrown,
    retryTransaction
      (scripted (alwaysFails "User rejected the request.") confirmed
         (fun _ => 0))
      (mkOptions None None) noCalls
    = Some (Rejected thrown, mkCalls 1 1 0,
            firstAttemptOnly "User rejected the request.")
    /\ formatTransactionError thrown
       = Return "Transaction failed: Transaction was cancelled by user.".
Proof.
  apply (cancellation_error_is_formatted_as_general
           (scripted (alwaysFails "User rejected the request.") confirmed
              (fun _ => 0))
           (mkOptions None None) noCalls (mkCalls 1 1 0)
           (firstAttemptOnly "User rejected the request.")
           (mkError "User rejected the request.")).
  - cbn. lia.
  - reflexivity.
  - reflexivity.
Defined.
